(** * WorkflowRunForm: the workflow-run submission pipeline

    A shallow embedding of the script part of the Vue component
    [WorkflowRunForm] (methods [getValidationScrollTo], [onValidation],
    [onToolStepInputs], [onDefaultStepInputs], [onHistoryInputs],
    [onResourceInputs], [onWpInputs], [onExecute] and the two promise
    callbacks of [onExecute]) together with the fragment of JavaScript the
    methods rely on: truthiness, own-property order of ordinary objects,
    [Object.entries], [Array.prototype.slice], property reads on primitives,
    [try]/[catch], and object identity (a heap of objects and arrays).

    Limits of the fragment, stated once:
    - numbers are the integers (a [Z]); [NaN], fractions and infinities do
      not occur;
    - objects are ordinary objects with own enumerable data properties;
      function-valued properties are absent, so a method call on an object
      of the heap is a [TypeError] unless the method is modelled ([slice]
      on arrays and strings);
    - every object inherits from [Object.prototype], whose accessor
      [__proto__] takes an assignment under that name ([own_write]); the
      prototype such an assignment gives the object is not kept: it adds no
      own property, own properties are all the methods read and all a
      request carries, and no object is assigned under that name twice;
    - [console.debug] is not modelled: it neither reads nor writes the
      component. *)

From stdpp Require Import base strings list sorting.
From Stdlib Require Import ZArith NArith DecimalString DecimalN DecimalZ Lia.

Open Scope Z_scope.

(** ** The JavaScript fragment *)
Module JS.

(** A location of the heap: the identity of an object or an array. *)
Abbreviation loc := nat (only parsing).

Inductive value : Type :=
| VUndef
| VNull
| VBool (b : bool)
| VNum (n : Z)
| VStr (s : string)
| VRef (l : loc).

(** An ordinary object keeps its properties in insertion order; an array
    keeps its elements. *)
Inductive object : Type :=
| OObj (props : list (string * value))
| OArr (elems : list value).

Abbreviation heap := (list object) (only parsing).

Inductive exn : Type := TypeError.

(** Completion of an evaluation: a value, or a thrown exception. *)
Inductive result (A : Type) : Type :=
| Normal (a : A)
| Throw (e : exn).
Arguments Normal {A} a.
Arguments Throw {A} e.

(** ToBoolean. *)
Definition truthy (v : value) : bool :=
  match v with
  | VUndef | VNull => false
  | VBool b => b
  | VNum n => negb (n =? 0)
  | VStr s => negb (String.eqb s "")
  | VRef _ => true
  end.

(** *** Property keys *)

(** The key of the array index [n]: its canonical decimal numeral. *)
Definition index_key (n : N) : string :=
  NilZero.string_of_uint (N.to_uint n).

(** ToString of an integer number, used by [o[n] = v]. *)
Definition number_key (n : Z) : string :=
  NilZero.string_of_int (Z.to_int n).

(** A key is an array index when it is the canonical numeral of an integer
    in [0, 2^32 - 2]. *)
Definition array_index (k : string) : option N :=
  match NilZero.uint_of_string k with
  | Some d =>
      let n := N.of_uint d in
      if String.eqb (index_key n) k && (n <? 4294967295)%N
      then Some n else None
  | None => None
  end.

Definition is_index (k : string) : bool :=
  match array_index k with Some _ => true | None => false end.

(** *** Own properties *)

Fixpoint prop_get (k : string) (props : list (string * value)) : option value :=
  match props with
  | [] => None
  | (k', v) :: ps => if String.eqb k' k then Some v else prop_get k ps
  end.

(** Writing the data property [k] of an object: an existing property keeps
    its place, a new one is added last. *)
Fixpoint prop_set (k : string) (v : value) (props : list (string * value))
  : list (string * value) :=
  match props with
  | [] => [(k, v)]
  | (k', v') :: ps =>
      if String.eqb k' k then (k', v) :: ps else (k', v') :: prop_set k v ps
  end.

(** [o[k] = v] on an ordinary object, which inherits from
    [Object.prototype]: the name [__proto__] is an accessor there, so an
    assignment under this name calls its setter and creates no property,
    unless [o] has a property of its own of this name. Every other name is
    written as a data property. *)
Definition own_write (k : string) (v : value) (props : list (string * value))
  : list (string * value) :=
  if String.eqb k "__proto__" then
    match prop_get k props with
    | Some _ => prop_set k v props
    | None => props
    end
  else prop_set k v props.

(** Insertion of an indexed entry into a list sorted by index. *)
Fixpoint insert_indexed (e : N * (string * value))
    (l : list (N * (string * value))) : list (N * (string * value)) :=
  match l with
  | [] => [e]
  | x :: l' =>
      if (e.1 <=? x.1)%N then e :: x :: l' else x :: insert_indexed e l'
  end.

Definition index_le (x y : N * (string * value)) : Prop := (x.1 ≤ y.1)%N.

Definition sort_indexed (l : list (N * (string * value)))
  : list (N * (string * value)) :=
  foldr insert_indexed [] l.

(** The entries whose key is an array index, tagged with the index. *)
Definition indexed_entries (props : list (string * value))
  : list (N * (string * value)) :=
  omap (λ kv, (λ n, (n, kv)) <$> array_index kv.1) props.

(** OrdinaryOwnPropertyKeys, paired with the values: array-index keys in
    ascending numeric order, then the other keys in insertion order. *)
Definition own_entries (props : list (string * value)) : list (string * value) :=
  (snd <$> sort_indexed (indexed_entries props))
  ++ filter (λ kv, array_index kv.1 = None) props.

Definition array_entries (elems : list value) : list (string * value) :=
  imap (λ i v, (index_key (N.of_nat i), v)) elems.

Definition string_chars (s : string) : list value :=
  (λ c, VStr (String c EmptyString)) <$> String.list_ascii_of_string s.

(** A location that holds nothing reads as an object without properties. *)
Definition heap_get (h : heap) (l : loc) : object :=
  default (OObj []) (h !! l).

(** [v] refers to an array of the heap. *)
Definition is_array (h : heap) (v : value) : bool :=
  match v with
  | VRef l => match h !! l with Some (OArr _) => true | _ => false end
  | _ => false
  end.

(** [v] refers to an ordinary object of the heap. *)
Definition is_object (h : heap) (v : value) : bool :=
  match v with
  | VRef l => match h !! l with Some (OObj _) => true | _ => false end
  | _ => false
  end.

(** [Object.entries(v)]: ToObject fails on [undefined] and [null]; numbers
    and booleans have no own enumerable property; a string has its
    characters, an array its elements. *)
Definition Object_entries (h : heap) (v : value) : result (list (string * value)) :=
  match v with
  | VUndef | VNull => Throw TypeError
  | VBool _ | VNum _ => Normal []
  | VStr s => Normal (array_entries (string_chars s))
  | VRef l =>
      match heap_get h l with
      | OObj props => Normal (own_entries props)
      | OArr elems => Normal (array_entries elems)
      end
  end.

Definition elems_get (k : string) (elems : list value) : value :=
  if String.eqb k "length" then VNum (Z.of_nat (length elems))
  else match array_index k with
       | Some i => default VUndef (elems !! N.to_nat i)
       | None => VUndef
       end.

(** [v[k]] / [v.k]: a read of an own property. *)
Definition get (h : heap) (v : value) (k : string) : result value :=
  match v with
  | VUndef | VNull => Throw TypeError
  | VBool _ | VNum _ => Normal VUndef
  | VStr s => Normal (elems_get k (string_chars s))
  | VRef l =>
      match heap_get h l with
      | OObj props => Normal (default VUndef (prop_get k props))
      | OArr elems => Normal (elems_get k elems)
      end
  end.

(** StringToNumber on the strings the fragment covers: the empty string is
    0 and a string of decimal digits is its value, as long as the value is
    an integer that a double holds exactly. [None]: outside the fragment. *)
Definition string_to_number (s : string) : option Z :=
  if String.eqb s "" then Some 0
  else match NilZero.uint_of_string s with
       | Some d =>
           let n := Z.of_N (N.of_uint d) in
           if n <=? 9007199254740992 then Some n else None
       | None => None
       end.

(** [v == n] for a number [n] (IsLooselyEqual). [None] where the answer
    needs ToPrimitive of an object or a numeral outside
    [string_to_number]. *)
Definition loose_eq_number (v : value) (n : Z) : option bool :=
  match v with
  | VUndef | VNull => Some false
  | VBool b => Some ((if b then 1 else 0) =? n)
  | VNum m => Some (m =? n)
  | VStr s => (λ m, m =? n) <$> string_to_number s
  | VRef _ => None
  end.

(** [v == null]: [undefined] and [null], and nothing else. *)
Definition nullish (v : value) : bool :=
  match v with VUndef | VNull => true | _ => false end.

(** The own enumerable properties an object spread [{...v}] copies:
    none of [undefined], [null], a number or a boolean. *)
Definition spread_entries (h : heap) (v : value) : list (string * value) :=
  match Object_entries h v with
  | Normal entries => entries
  | Throw _ => []
  end.

End JS.

(** ** The component *)
Module WorkflowRunForm.
Import JS.

(** The [model] prop, as far as the methods read it. [isConnected] belongs
    to the run model, which lives outside this component: it is taken as a
    total predicate on (step id, input name). *)
Record model_t : Type := Model {
  workflowId : value;
  historyId : value;
  isConnected : string → string → bool;
}.

(** The reactive data of the component ([data()]), plus [resourceData],
    which [onResourceInputs] creates. *)
Record component : Type := Component {
  showExecuting : bool;
  stepData : value;
  stepValidations : value;
  stepScrollTo : value;
  wpData : value;
  historyData : value;
  useCachedJobs : value;
  resourceData : value;
}.

(** The object literal [jobDef]. *)
Record jobDef_t : Type := JobDef {
  new_history_name : value;
  history_id : value;
  resource_params : value;
  replacement_params : value;
  use_cached_job : value;
  parameters : value;
  parameters_normalized : value;
  batch : value;
  require_exact_tool_versions : value;
}.

(** What the component does to its surroundings, in order. *)
Inductive event : Type :=
| Busy (b : bool)                                  (* this.showExecuting = b *)
| InvokeWorkflow (wid : value) (jd : jobDef_t)     (* invokeWorkflow(wid, jd) *)
| Emit (name : string) (payload : value).          (* this.$emit(name, payload) *)

Record world : Type := World {
  this : component;
  store : heap;
  trace : list event;
}.

(** *** State and exception monad *)

Definition M (A : Type) : Type := world → result A * world.

#[export] Instance M_ret : MRet M := λ A a w, (Normal a, w).
#[export] Instance M_bind : MBind M := λ A B f m w,
  match m w with
  | (Normal a, w') => f a w'
  | (Throw e, w') => (Throw e, w')
  end.

Definition throw {A} (e : exn) : M A := λ w, (Throw e, w).

(** [try { body } catch (x) { handler }]: the writes of [body] before the
    throw stay. *)
Definition try_catch (body : M unit) (handler : exn → M unit) : M unit :=
  λ w, match body w with
       | (Normal a, w') => (Normal a, w')
       | (Throw e, w') => handler e w'
       end.

Definition lift {A} (f : heap → result A) : M A := λ w, (f (store w), w).

Definition read {A} (f : component → A) : M A := λ w, (Normal (f (this w)), w).

Definition write (f : component → component) : M unit :=
  λ w, (Normal (), World (f (this w)) (store w) (trace w)).

Definition log (e : event) : M unit :=
  λ w, (Normal (), World (this w) (store w) (trace w ++ [e])).

(** A new object or array: a location no value refers to yet. *)
Definition alloc (o : object) : M value :=
  λ w, (Normal (VRef (length (store w))),
        World (this w) (store w ++ [o]) (trace w)).

(** [o[k] = v]: a write to an ordinary object of the heap ([own_write]:
    the name [__proto__] goes to the accessor and adds no property); on
    [undefined], [null] and, the script being a module and so strict code,
    on the other primitives the assignment throws. A write to an array does
    not occur: every assignment of the component goes to an object made by
    a [{}] literal. *)
Definition set (o : value) (k : string) (v : value) : M unit :=
  λ w, match o with
       | VRef l =>
           match store w !! l with
           | Some (OObj props) =>
               (Normal (),
                World (this w) (<[l := OObj (own_write k v props)]> (store w))
                      (trace w))
           | _ => (Normal (), w)
           end
       | _ => (Throw TypeError, w)
       end.

Fixpoint forEach {A} (f : A → M unit) (l : list A) : M unit :=
  match l with
  | [] => mret ()
  | x :: l' => f x ;; forEach f l'
  end.

(** [v.slice()]: a new array with the elements of an array, the string
    itself for a string, and no such method on anything else. *)
Definition slice (v : value) : M value :=
  λ w, match v with
       | VStr s => (Normal (VStr s), w)
       | VRef l =>
           match store w !! l with
           | Some (OArr elems) => alloc (OArr elems) w
           | _ => (Throw TypeError, w)
           end
       | _ => (Throw TypeError, w)
       end.

(** Field updates of [this]. *)
Definition set_showExecuting (b : bool) (c : component) : component :=
  Component b (stepData c) (stepValidations c) (stepScrollTo c) (wpData c)
            (historyData c) (useCachedJobs c) (resourceData c).
Definition set_stepData (v : value) (c : component) : component :=
  Component (showExecuting c) v (stepValidations c) (stepScrollTo c) (wpData c)
            (historyData c) (useCachedJobs c) (resourceData c).
Definition set_stepScrollTo (v : value) (c : component) : component :=
  Component (showExecuting c) (stepData c) (stepValidations c) v (wpData c)
            (historyData c) (useCachedJobs c) (resourceData c).
Definition set_wpData (v : value) (c : component) : component :=
  Component (showExecuting c) (stepData c) (stepValidations c) (stepScrollTo c) v
            (historyData c) (useCachedJobs c) (resourceData c).
Definition set_historyData (v : value) (c : component) : component :=
  Component (showExecuting c) (stepData c) (stepValidations c) (stepScrollTo c)
            (wpData c) v (useCachedJobs c) (resourceData c).
Definition set_resourceData (v : value) (c : component) : component :=
  Component (showExecuting c) (stepData c) (stepValidations c) (stepScrollTo c)
            (wpData c) (historyData c) (useCachedJobs c) v.

(** [this.showExecuting = b], seen by the template. *)
Definition busy (b : bool) : M unit :=
  write (set_showExecuting b) ;; log (Busy b).

(** [data()]: three fresh empty objects for [stepData], [stepValidations]
    and [stepScrollTo], two more for [wpData] and [historyData]. *)
Definition data : world :=
  World (Component false (VRef 0%nat) (VRef 1%nat) (VRef 2%nat) (VRef 3%nat)
                   (VRef 4%nat) (VBool false) VUndef)
        [OObj []; OObj []; OObj []; OObj []; OObj []]
        [].

Section Methods.
Variable model : model_t.

(** [getValidationScrollTo(stepId)], called by the template with
    [step.index], a number. [None]: the comparison [==] is outside the
    fragment ([loose_eq_number]). *)
Definition getValidationScrollTo (stepId : Z) (w : world)
  : option (result value * world) :=
  match (t ← read stepScrollTo; lift (λ h, get h t "stepId")) w with
  | (Normal sid, w1) =>
      match loose_eq_number sid stepId with
      | Some true =>
          Some ((t ← read stepScrollTo; lift (λ h, get h t "stepError")) w1)
      | Some false => Some (alloc (OArr []) w1)
      | None => None
      end
  | (Throw e, w1) => Some (Throw e, w1)
  end.

(** [onDefaultStepInputs(stepId, data)]; [Object.assign({}, o)] copies the
    own properties of [o], in own-property order, into a new object. The
    names of [stepData] are the numerals the two recorders write, of which
    none is [__proto__]. *)
Definition onDefaultStepInputs (stepId : Z) (d : value) : M unit :=
  sd ← read stepData;
  set sd (number_key stepId) d ;;
  sd ← read stepData;
  ents ← lift (λ h, Object_entries h sd);
  copy ← alloc (OObj (foldl (λ ps kv, prop_set kv.1 kv.2 ps) [] ents));
  write (set_stepData copy).

Definition onToolStepInputs (stepId : Z) (d : value) : M unit :=
  sd ← read stepData;
  set sd (number_key stepId) d.

Definition onHistoryInputs (d : value) : M unit := write (set_historyData d).
Definition onResourceInputs (d : value) : M unit := write (set_resourceData d).
Definition onWpInputs (d : value) : M unit := write (set_wpData d).

Definition onValidation (stepId : Z) (validation : value) : M unit :=
  sv ← read stepValidations;
  set sv (number_key stepId) validation.

(** The [for ... of] loop of [onExecute] over the entries of
    [this.stepValidations]; [true]: the loop left [onExecute] by [return]. *)
Fixpoint scan_validations (entries : list (string * value)) : M bool :=
  match entries with
  | [] => mret false
  | (stepId, stepValidation) :: rest =>
      if truthy stepValidation then
        stepError ← slice stepValidation;
        target ← alloc (OObj [("stepId", VStr stepId);
                              ("stepError", stepError)]);
        write (set_stepScrollTo target) ;;
        mret true
      else scan_validations rest
  end.

(** The body of the inner [forEach] of [onExecute]. The assignment is an
    ordinary one ([set]) to an object made by [{}]: for an input named
    [__proto__] it adds no property. *)
Definition keep_unconnected (stepId : string) (stepDataFiltered : value)
    (entry : string * value) : M unit :=
  let '(inputName, inputValue) := entry in
  if negb (isConnected model stepId inputName)
  then set stepDataFiltered inputName inputValue
  else mret ().

(** The body of the outer [forEach] of [onExecute]. *)
Definition filter_step (parameters : value) (entry : string * value) : M unit :=
  let '(stepId, stepData) := entry in
  stepDataFiltered ← alloc (OObj []);
  inputs ← lift (λ h, Object_entries h stepData);
  forEach (keep_unconnected stepId stepDataFiltered) inputs ;;
  set parameters stepId stepDataFiltered.

Definition history_name : M value :=
  hd ← read historyData; lift (λ h, get h hd "new_history|name").

(** The synchronous part of [onExecute()], up to and including the call of
    [invokeWorkflow]. *)
Definition onExecute : M unit :=
  sv ← read stepValidations;
  entries ← lift (λ h, Object_entries h sv);
  returned ← scan_validations entries;
  if returned : bool then mret () else
  parameters ← alloc (OObj []);
  sd ← read stepData;
  steps ← lift (λ h, Object_entries h sd);
  forEach (filter_step parameters) steps ;;
  n1 ← history_name;
  new_history_name ← (if truthy n1 then history_name else mret VNull);
  n2 ← history_name;
  let history_id := if negb (truthy n2) then historyId model else VNull in
  resource_params ← read resourceData;
  replacement_params ← read wpData;
  use_cached_job ← read useCachedJobs;
  let jobDef :=
    JobDef new_history_name history_id resource_params replacement_params
           use_cached_job parameters
           (VBool true) (VBool true) (VBool false) in
  busy true ;;
  log (InvokeWorkflow (workflowId model) jobDef).

(** The [then] callback of [onExecute]. *)
Definition onExecute_then (invocations : value) : M unit :=
  busy false ;;
  log (Emit "submissionSuccess" invocations).

(** [a && b]. *)
Definition and_then (a : value) (b : M value) : M value :=
  if truthy a then b else mret a.

Definition dot (k : string) (v : value) : M value := lift (λ h, get h v k).

(** [e && e.response && e.response.data && e.response.data.err_data]. *)
Definition error_data (e : value) : M value :=
  and_then e (
    r ← dot "response" e;
    and_then r (
      d ← (dot "response" e ≫= dot "data");
      and_then d ((dot "response" e ≫= dot "data") ≫= dot "err_data"))).

(** The [try] block of the [catch] callback. [Object.entries] yields its
    pairs as a list here; the one pair the block keeps, [stepError], is
    allocated as the two-element array it is. *)
Definition localize_error (errorData : value) : M unit :=
  errorEntries ← lift (λ h, Object_entries h errorData);
  match head errorEntries with
  | None => throw TypeError                 (* errorEntries[0] is undefined *)
  | Some (stepId, fields) =>
      fieldEntries ← lift (λ h, Object_entries h fields);
      stepError ← match head fieldEntries with
                  | None => mret VUndef
                  | Some (name, message) => alloc (OArr [VStr name; message])
                  end;
      target ← alloc (OObj [("stepId", VStr stepId);
                            ("stepError", stepError)]);
      write (set_stepScrollTo target)
  end.

(** The [catch] callback of [onExecute]. *)
Definition onExecute_catch (e : value) : M unit :=
  busy false ;;
  errorData ← error_data e;
  if truthy errorData then
    try_catch (localize_error errorData)
              (λ errorFormatting, log (Emit "submissionError" e))
  else log (Emit "submissionError" e).

End Methods.

(** The world a method leaves behind. *)
Definition exec {A} (m : M A) (w : world) : world := (m w).2.

(** *** The loops of [onExecute], read as functions *)

(** What the inner [forEach] makes of [stepDataFiltered], starting from the
    properties [acc]. *)
Definition filter_inputs_from (model : model_t) (stepId : string)
    (acc : list (string * value)) (inputs : list (string * value))
  : list (string * value) :=
  foldl (λ ps kv, if negb (isConnected model stepId kv.1)
                  then own_write kv.1 kv.2 ps else ps) acc inputs.

Definition filter_inputs (model : model_t) (stepId : string)
    (inputs : list (string * value)) : list (string * value) :=
  filter_inputs_from model stepId [] inputs.

(** *** Reading the error payload, in the words of the specification *)

(** An own property of an ordinary object of the heap. *)
Definition field (h : heap) (v : value) (k : string) : option value :=
  match v with
  | VRef l => match h !! l with
              | Some (OObj props) => prop_get k props
              | _ => None
              end
  | _ => None
  end.

(** The per-step error map the error object carries at the nested path
    [response.data.err_data], if it carries one. *)
Definition err_data_of (h : heap) (e : value) : option value :=
  r ← field h e "response"; d ← field h r "data"; field h d "err_data".

(** *** Validation entries, in the words of the specification *)

(** The specification calls an entry empty when it is absent or holds an
    empty value, the empty list included ("validations {0: [], ...}");
    a non-empty entry is a list with a first element. *)
Definition spec_nonempty (h : heap) (v : value) : bool :=
  match v with
  | VRef l => match h !! l with Some (OArr (_ :: _)) => true | _ => false end
  | _ => false
  end.

(** "For all step sets with at least one non-empty validation entry,
    execute() must not call the submission service, and the scroll target
    must equal the lowest step index with a non-empty entry", at the
    world [w]. *)
Definition stated_lowest_nonempty_wins (model : model_t) (w : world) : Prop :=
  ∀ lv pv,
    stepValidations (this w) = VRef lv →
    store w !! lv = Some (OObj pv) →
    Exists (λ kv, spec_nonempty (store w) kv.2 = true) pv →
    let w' := exec (onExecute model) w in
    trace w' = trace w ∧
    ∃ n v,
      get (store w') (stepScrollTo (this w')) "stepId"
        = Normal (VStr (index_key n)) ∧
      (index_key n, v) ∈ pv ∧ spec_nonempty (store w) v = true ∧
      ∀ n' v', (index_key n', v') ∈ pv →
               spec_nonempty (store w) v' = true → (n ≤ n')%N.

(** "For all step sets where every validation entry is empty, execute()
    must reach the submission call exactly once per invocation", with the
    busy indicator set before the call, at the world [w]. *)
Definition stated_all_empty_submits (model : model_t) (w : world) : Prop :=
  ∀ lv pv,
    stepValidations (this w) = VRef lv →
    store w !! lv = Some (OObj pv) →
    Forall (λ kv, spec_nonempty (store w) kv.2 = false) pv →
    ∃ jd, trace (exec (onExecute model) w)
          = trace w ++ [Busy true; InvokeWorkflow (workflowId model) jd].

(** *** The filtered parameters, in the words of the specification *)

(** "For every step and every input name in that step's recorded input
    map, if the step model reports that input as connected, the request's
    parameter map for that step omits that input name; all non-connected
    inputs are kept with their recorded values", at the world [w]. *)
Definition stated_inputs_kept (model : model_t) (w : world) : Prop :=
  ∀ ls ps,
    stepData (this w) = VRef ls →
    store w !! ls = Some (OObj ps) →
    ∃ w' jd lp params,
      onExecute model w = (Normal (), w') ∧
      trace w' = trace w ++ [Busy true; InvokeWorkflow (workflowId model) jd] ∧
      parameters jd = VRef lp ∧
      store w' !! lp = Some (OObj params) ∧
      ∀ stepId li inputs inputName inputValue,
        (stepId, VRef li) ∈ ps →
        store w !! li = Some (OObj inputs) →
        prop_get inputName inputs = Some inputValue →
        ∃ lf filtered,
          prop_get stepId params = Some (VRef lf) ∧
          store w' !! lf = Some (OObj filtered) ∧
          prop_get inputName filtered =
            if isConnected model stepId inputName then None
            else Some inputValue.

(** *** The history target, in the words of the specification *)

(** A field of the request is active when it holds a value: [null] and
    [undefined] say that there is none. *)
Definition active (v : value) : bool := negb (nullish v).

(** "For every submission, exactly one of the history fields is active: if
    the recorded new-history-name value is present and non-empty, the
    request has new_history_name set to that value and history_id = null;
    if it is empty or absent, the request has history_id set to the
    model's current history id and new_history_name = null", at the world
    [w]. *)
Definition stated_history_target (model : model_t) (w : world) : Prop :=
  ∀ lh hprops,
    historyData (this w) = VRef lh →
    store w !! lh = Some (OObj hprops) →
    ∃ w' jd,
      onExecute model w = (Normal (), w') ∧
      trace w' = trace w ++ [Busy true; InvokeWorkflow (workflowId model) jd] ∧
      xorb (active (new_history_name jd)) (active (history_id jd)) = true ∧
      (∀ s, prop_get "new_history|name" hprops = Some (VStr s) → s ≠ "" →
            new_history_name jd = VStr s ∧ history_id jd = VNull) ∧
      (prop_get "new_history|name" hprops = None
       ∨ prop_get "new_history|name" hprops = Some (VStr "") →
       new_history_name jd = VNull ∧ history_id jd = historyId model).

(** *** The fixed protocol flags *)

Definition fixed_flags (jd : jobDef_t) : Prop :=
  parameters_normalized jd = VBool true ∧
  batch jd = VBool true ∧
  require_exact_tool_versions jd = VBool false.

(** An event that is not a request, or a request with the fixed flags. *)
Definition carries_fixed_flags (ev : event) : Prop :=
  match ev with
  | InvokeWorkflow _ jd => fixed_flags jd
  | _ => True
  end.

(** [m] adds to the trace only events that satisfy [P]. *)
Definition emits_only {A} (P : event → Prop) (m : M A) : Prop :=
  ∀ w, ∃ added, trace (exec m w) = trace w ++ added ∧ Forall P added.

(** *** Worlds used as examples *)

Definition example_model : model_t :=
  Model (VStr "wf1") (VStr "h1")
        (λ stepId inputName, String.eqb stepId "0" && String.eqb inputName "a").

(** The same model, of a run that came without a history id. *)
Definition example_model_no_history : model_t :=
  Model (VStr "wf1") VNull (isConnected example_model).

(** validations [{0: [], 1: ["required"]}] *)
Definition world_empty_list_first : world :=
  exec (v0 ← alloc (OArr []); onValidation 0 v0 ;;
        v1 ← alloc (OArr [VStr "required"]); onValidation 1 v1) data.

(** validations [{0: null, 1: ["required"]}] *)
Definition world_null_first : world :=
  exec (onValidation 0 VNull ;;
        v1 ← alloc (OArr [VStr "required"]); onValidation 1 v1) data.

(** validations [{0: []}] *)
Definition world_only_empty_list : world :=
  exec (v0 ← alloc (OArr []); onValidation 0 v0) data.

(** validations [{10: ["late"], 2: null, 3: ["x", "y"]}], reported in this
    order. *)
Definition world_three_steps : world :=
  exec (v10 ← alloc (OArr [VStr "late"]); onValidation 10 v10 ;;
        onValidation 2 VNull ;;
        v3 ← alloc (OArr [VStr "x"; VStr "y"]); onValidation 3 v3) data.

(** inputs [{0: {a: 1, b: 2}, 1: {c: 3}}], validations [{0: null}], and a
    new history name. *)
Definition world_two_inputs : world :=
  exec (i0 ← alloc (OObj [("a", VNum 1); ("b", VNum 2)]);
        onToolStepInputs 0 i0 ;;
        i1 ← alloc (OObj [("c", VNum 3)]);
        onToolStepInputs 1 i1 ;;
        onValidation 0 VNull ;;
        hd ← alloc (OObj [("new_history|check", VStr "true");
                          ("new_history|name", VStr "Results")]);
        onHistoryInputs hd) data.

(** the same inputs, results sent to the current history *)
Definition world_current_history : world :=
  exec (hd ← alloc (OObj [("new_history|check", VStr "false")]);
        onHistoryInputs hd) world_two_inputs.

(** inputs [{0: {["__proto__"]: 5, b: 2}}]: the first input is a property
    of the map itself, named [__proto__], as a computed name in a literal
    or [JSON.parse] makes it; no validation, no history option. *)
Definition world_proto_input : world :=
  exec (i0 ← alloc (OObj [("__proto__", VNum 5); ("b", VNum 2)]);
        onToolStepInputs 0 i0) data.

(** An error object [{response: {data: {err_data: errs}}}], allocated on
    top of [data]; the error is the last object allocated. *)
Definition world_with_error (errs : M value) : world :=
  exec (x ← errs;
        d ← alloc (OObj [("err_data", x)]);
        r ← alloc (OObj [("data", d)]);
        alloc (OObj [("response", r)])) data.

Definition last_allocated (w : world) : value := VRef (pred (length (store w))).

(** [err_data = {"2": {"field_x": "bad value"}}] *)
Definition world_field_error : world :=
  world_with_error (f ← alloc (OObj [("field_x", VStr "bad value")]);
                    alloc (OObj [("2", f)])).

(** an error [{response: {data: {message: "boom"}}}] without [err_data] *)
Definition world_opaque_error : world :=
  exec (d ← alloc (OObj [("message", VStr "boom")]);
        r ← alloc (OObj [("data", d)]);
        alloc (OObj [("response", r)])) data.

(** [err_data = {}] *)
Definition world_no_step_error : world :=
  world_with_error (alloc (OObj [])).

(** [err_data = {"2": {}}] *)
Definition world_no_field_error : world :=
  world_with_error (f ← alloc (OObj []); alloc (OObj [("2", f)])).

(** [world_three_steps] after [onExecute] *)
Definition world_three_steps_blocked : world :=
  exec (onExecute example_model) world_three_steps.

(** "validations {0: [], 1: ["required"]} => execute aborts, scrollTarget =
    {stepId: 1, stepError: ["required"]}, no network call". *)
Definition stated_empty_list_is_valid (model : model_t) : Prop :=
  let w' := exec (onExecute model) world_empty_list_first in
  trace w' = [] ∧
  ∃ sid lc,
    get (store w') (stepScrollTo (this w')) "stepId" = Normal sid ∧
    loose_eq_number sid 1 = Some true ∧
    get (store w') (stepScrollTo (this w')) "stepError" = Normal (VRef lc) ∧
    store w' !! lc = Some (OArr [VStr "required"]).

(** *** [toArray] and the computed properties *)

Fixpoint mapM {A B} (f : A → M B) (l : list A) : M (list B) :=
  match l with
  | [] => mret []
  | x :: l' => y ← f x; ys ← mapM f l'; mret (y :: ys)
  end.

(** [Object.keys(v)]. *)
Definition Object_keys (h : heap) (v : value) : result (list string) :=
  match Object_entries h v with
  | Normal entries => Normal entries.*1
  | Throw e => Throw e
  end.

(** [toArray(obj)]: [obj ? Object.keys(obj).map((k) => obj[k]) : []]. The
    array of keys is a temporary; the array [map] makes is allocated. *)
Definition toArray (obj : value) : M value :=
  if truthy obj then
    keys ← lift (λ h, Object_keys h obj);
    vals ← mapM (λ k, lift (λ h, get h obj k)) keys;
    alloc (OArr vals)
  else alloc (OArr []).

(** [v > n] for a number [n]. [None] where the answer needs ToPrimitive of
    an object or a numeral outside [string_to_number]. *)
Definition gt_number (v : value) (n : Z) : option bool :=
  match v with
  | VUndef => Some false
  | VNull => Some (n <? 0)
  | VBool b => Some (n <? (if b then 1 else 0))
  | VNum m => Some (n <? m)
  | VStr s => (λ m, n <? m) <$> string_to_number s
  | VRef _ => None
  end.

(** The part of the [model] prop the computed properties read. *)
Record model_inputs_t : Type := ModelInputs {
  model_workflowResourceParameters : value;
  model_wpInputs : value;
}.

(** [resourceInputs()] and [wpInputs()]. *)
Definition resourceInputs (mi : model_inputs_t) : M value :=
  toArray (model_workflowResourceParameters mi).
Definition wpInputs (mi : model_inputs_t) : M value :=
  toArray (model_wpInputs mi).

(** [inputs.length > 0], the body of [resourceInputsAvailable()] and of
    [wpInputsAvailable()]. [None]: the comparison is outside the fragment
    ([gt_number]). *)
Definition length_positive (inputs : M value) (w : world)
  : option (result bool * world) :=
  match (arr ← inputs; lift (λ h, get h arr "length")) w with
  | (Normal len, w1) => (λ b, (Normal b, w1)) <$> gt_number len 0
  | (Throw e, w1) => Some (Throw e, w1)
  end.

Definition resourceInputsAvailable (mi : model_inputs_t) :=
  length_positive (resourceInputs mi).
Definition wpInputsAvailable (mi : model_inputs_t) :=
  length_positive (wpInputs mi).

(** *** Relations between the world before and after a method *)

(** Every run of [m] takes a world to one related to it by [R]. *)
Definition steps_in (R : relation world) {A} (m : M A) : Prop :=
  ∀ w, R w (exec m w).

(** No event, and [showExecuting] as it was. *)
Definition same_log : relation world :=
  λ w w', trace w' = trace w ∧
          showExecuting (this w') = showExecuting (this w).

(** What the forms have recorded in the component. *)
Definition recorded (c : component)
  : value * value * value * value * value * value :=
  (stepData c, stepValidations c, wpData c, historyData c, useCachedJobs c,
   resourceData c).

(** The first [n] objects of the heap and the recorded fields are as they
    were; no object has gone. *)
Definition frame_from (n : nat) : relation world :=
  λ w w', (n ≤ length (store w))%nat →
          take n (store w') = take n (store w) ∧
          (n ≤ length (store w'))%nat ∧
          recorded (this w') = recorded (this w).

(** No ordinary object of the heap has two properties of one name. *)
Definition unique_keys (h : heap) : Prop :=
  ∀ l ps, h !! l = Some (OObj ps) → NoDup ps.*1.

Definition unique_object (o : object) : Prop :=
  match o with OObj ps => NoDup ps.*1 | OArr _ => True end.

Definition keeps_unique : relation world :=
  λ w w', unique_keys (store w) → unique_keys (store w').

(** [m] sends no request and leaves [showExecuting] alone, or completes
    having set [showExecuting] and then sent one request. *)
Definition sends_at_most_once (model : model_t) {A} (m : M A) : Prop :=
  ∀ w, same_log w (exec m w) ∨
       ∃ a jd,
         m w = (Normal a, exec m w) ∧
         trace (exec m w)
           = trace w ++ [Busy true; InvokeWorkflow (workflowId model) jd] ∧
         showExecuting (this (exec m w)) = true.

(** The methods of the component and the two promise callbacks. *)
Inductive method : Type :=
| DefaultStepInputs (stepId : Z) (d : value)
| ToolStepInputs (stepId : Z) (d : value)
| HistoryInputs (d : value)
| ResourceInputs (d : value)
| WpInputs (d : value)
| Validation (stepId : Z) (validation : value)
| Execute
| ExecuteThen (invocations : value)
| ExecuteCatch (e : value)
| ToArray (obj : value).

Definition call (model : model_t) (m : method) : M unit :=
  match m with
  | DefaultStepInputs stepId d => onDefaultStepInputs stepId d
  | ToolStepInputs stepId d => onToolStepInputs stepId d
  | HistoryInputs d => onHistoryInputs d
  | ResourceInputs d => onResourceInputs d
  | WpInputs d => onWpInputs d
  | Validation stepId v => onValidation stepId v
  | Execute => onExecute model
  | ExecuteThen invocations => onExecute_then invocations
  | ExecuteCatch e => onExecute_catch e
  | ToArray obj => toArray obj ;; mret ()
  end.

(** *** More worlds used as examples *)

(** validations [{0: 5}]: a truthy entry that is not a list *)
Definition world_number_validation : world :=
  exec (onValidation 0 (VNum 5)) data.

(** inputs [{0: null}] *)
Definition world_null_input : world :=
  exec (onToolStepInputs 0 VNull) data.

(** workflow parameters [{b: "B", 1: "one", a: "A"}] at location 5 *)
Definition world_wp_inputs : world :=
  exec (alloc (OObj [("b", VStr "B"); ("1", VStr "one"); ("a", VStr "A")]))
       data.

(** validations [{1: ["required"]}] *)
Definition world_one_failure : world :=
  exec (v1 ← alloc (OArr [VStr "required"]); onValidation 1 v1) data.

End WorkflowRunForm.

(** ** The data providers *)
Module StoreProviders.
Import JS.

(** The reactive data of a provider. *)
Record provider : Type := Provider {
  loading : bool;
  item : value;
}.

(** What a provider asks of its surroundings. *)
Inductive request : Type :=
| Get (url : value)                                 (* axios.get(url) *)
| Put (url : value) (newProps : value)              (* axios.put(url, newProps) *)
| Dispatch (action : string) (payload : list value). (* this[action](...payload) *)

Record pworld : Type := PWorld {
  pthis : provider;
  pstore : heap;
  ptrace : list request;
}.

(** How far an [async] method has run: to its end, or to an [await] whose
    promise is pending. *)
Inductive progress : Type := Returned | Awaiting.

Definition set_loading (b : bool) (w : pworld) : pworld :=
  PWorld (Provider b (item (pthis w))) (pstore w) (ptrace w).

Definition set_item (v : value) (w : pworld) : pworld :=
  PWorld (Provider (loading (pthis w)) v) (pstore w) (ptrace w).

Definition ask (r : request) (w : pworld) : pworld :=
  PWorld (pthis w) (pstore w) (ptrace w ++ [r]).

(** *** [SimpleProviderMixin] *)

(** [load()] up to its [await]; [url] is the computed property of the
    provider that mixes this in. *)
Definition load (url : value) (w : pworld) : progress * pworld :=
  (Awaiting, ask (Get url) (set_loading true w)).

(** [save(newProps)] up to its [await]. *)
Definition save (url newProps : value) (w : pworld) : progress * pworld :=
  (Awaiting, ask (Put url newProps) (set_loading true w)).

(** [load] and [save] from the moment the request has resolved with
    [response]: [const { data } = response; this.item = data;
    this.loading = false]. When the request is rejected nothing more of
    the method runs. *)
Definition resolved (response : value) (w : pworld) : result unit * pworld :=
  match get (pstore w) response "data" with
  | Normal data => (Normal (), set_loading false (set_item data w))
  | Throw e => (Throw e, w)
  end.

(** *** [GenomeProvider] and [DatatypesProvider] *)

(** Their [load()] up to its end or to its [await]: [cached] is what the
    store getter returns at the call, [action] the cached store action.
    [None]: [cached.length == 0] is outside the fragment. *)
Definition cached_load (action : string) (cached : value) (w : pworld)
  : option (result progress * pworld) :=
  let w1 := set_loading true w in
  let fetch := Some (Normal Awaiting, ask (Dispatch action []) w1) in
  if nullish cached then fetch
  else match get (pstore w1) cached "length" with
       | Normal len =>
           match loose_eq_number len 0 with
           | Some true => fetch
           | Some false =>
               Some (Normal Returned, set_loading false (set_item cached w1))
           | None => None
           end
       | Throw e => Some (Throw e, w1)
       end.

(** The same [load()] from the moment the action has completed: [cached]
    is what the store getter returns now. *)
Definition cached_load_fetched (cached : value) (w : pworld) : pworld :=
  set_loading false (set_item cached w).

Definition GenomeProvider_load := cached_load "fetchUploadGenomes".
Definition DatatypesProvider_load := cached_load "fetchUploadDatatypes".

(** *** [StoreProvider(storeAction, storeGetter)] *)

(** [load()] up to its [await]: the action gets a new object with the own
    properties of [$attrs]. *)
Definition StoreProvider_load (storeAction : string) (attrs : value)
    (w : pworld) : progress * pworld :=
  let w1 := set_loading true w in
  let copy :=
    OObj (foldl (λ ps kv, prop_set kv.1 kv.2 ps) []
                (spread_entries (pstore w1) attrs)) in
  (Awaiting,
   PWorld (pthis w1) (pstore w1 ++ [copy])
          (ptrace w1 ++ [Dispatch storeAction [VRef (length (pstore w1))]])).

(** [load()] from the moment the action has completed. *)
Definition StoreProvider_loaded (w : pworld) : pworld := set_loading false w.

Definition DatasetProvider_load := StoreProvider_load "fetchDataset".
Definition CollectionElementsProvider_load :=
  StoreProvider_load "fetchCollectionElements".
Definition HistoryItemsProvider_load := StoreProvider_load "fetchHistoryItems".

(** *** Worlds used as examples *)

(** [data()] of a provider, over a store holding an empty list, the list
    [["hg19", "mm10"]], the object [{limit: 5, 10: "x"}] and the response
    [{data: "job"}]. *)
Definition provider_data : pworld :=
  PWorld (Provider false VNull)
         [OArr []; OArr [VStr "hg19"; VStr "mm10"];
          OObj [("limit", VNum 5); ("10", VStr "x")];
          OObj [("data", VStr "job"); ("status", VNum 200)]]
         [].

End StoreProviders.

(** * Facts about the JavaScript fragment *)
Module JSFacts.
Import JS.

Lemma to_uint_not_nil (n : N) : N.to_uint n ≠ Decimal.Nil.
Proof.
  destruct n as [|p]; [discriminate|].
  apply DecimalPos.Unsigned.to_uint_nonnil.
Qed.

(** The numeral of an index below 2^32 - 1 is an array index, and names
    that index. *)
Lemma array_index_key (n : N) :
  (n < 4294967295)%N → array_index (index_key n) = Some n.
Proof.
  intros Hn. unfold array_index, index_key.
  rewrite NilZero.usu by apply to_uint_not_nil.
  rewrite DecimalN.Unsigned.of_to, String.eqb_refl.
  apply N.ltb_lt in Hn. by rewrite Hn.
Qed.

(** An array index is written in exactly one way. *)
Lemma array_index_Some (k : string) (n : N) :
  array_index k = Some n → k = index_key n ∧ (n < 4294967295)%N.
Proof.
  unfold array_index. destruct (NilZero.uint_of_string k) as [d|]; [|done].
  cbn zeta. destruct (String.eqb_spec (index_key (N.of_uint d)) k) as [E|]; [|done].
  destruct (N.ltb_spec (N.of_uint d) 4294967295); [|done].
  cbn. intros [= <-]. done.
Qed.

Lemma index_key_inj (n m : N) : index_key n = index_key m → n = m.
Proof.
  unfold index_key. intros E.
  apply DecimalN.Unsigned.to_uint_inj.
  assert (Some (N.to_uint n) = Some (N.to_uint m)) as [= ->]; [|done].
  rewrite <- (NilZero.usu (N.to_uint n)), <- (NilZero.usu (N.to_uint m))
    by apply to_uint_not_nil.
  by rewrite E.
Qed.

Lemma index_key_not_empty (n : N) : index_key n ≠ "".
Proof.
  unfold index_key. pose proof (to_uint_not_nil n) as H.
  destruct (N.to_uint n); [done|..]; discriminate.
Qed.

(** StringToNumber reads the numeral of an index back. *)
Lemma string_to_number_index_key (n : N) :
  (n < 4294967295)%N → string_to_number (index_key n) = Some (Z.of_N n).
Proof.
  intros Hn. unfold string_to_number.
  destruct (String.eqb_spec (index_key n) "") as [E|_].
  { by apply index_key_not_empty in E. }
  unfold index_key. rewrite NilZero.usu by apply to_uint_not_nil.
  rewrite DecimalN.Unsigned.of_to. cbn zeta.
  destruct (Z.leb_spec (Z.of_N n) 9007199254740992); [done|lia].
Qed.

(** *** Property lists *)

Lemma prop_get_set_eq k v ps : prop_get k (prop_set k v ps) = Some v.
Proof.
  induction ps as [|[k' v'] ps IH]; cbn.
  - by rewrite String.eqb_refl.
  - destruct (String.eqb_spec k' k) as [->|Hne]; cbn.
    + by rewrite String.eqb_refl.
    + by destruct (String.eqb_spec k' k).
Qed.

Lemma prop_get_set_ne k k' v ps :
  k ≠ k' → prop_get k' (prop_set k v ps) = prop_get k' ps.
Proof.
  intros Hne. induction ps as [|[k0 v0] ps IH]; cbn.
  - by destruct (String.eqb_spec k k').
  - destruct (String.eqb_spec k0 k) as [->|Hk0]; cbn.
    + by destruct (String.eqb_spec k k').
    + by rewrite IH.
Qed.

(** Assignments: every name but [__proto__] is written as a property. *)
Lemma own_write_prop_set k v ps :
  k ≠ "__proto__" → own_write k v ps = prop_set k v ps.
Proof. intros Hk. unfold own_write. by destruct (String.eqb_spec k "__proto__"). Qed.

Lemma number_key_not_proto (n : Z) : number_key n ≠ "__proto__".
Proof.
  unfold number_key. destruct (Z.to_int n) as [d|d]; [|discriminate].
  destruct d; discriminate.
Qed.

Lemma own_write_number_key n v ps :
  own_write (number_key n) v ps = prop_set (number_key n) v ps.
Proof. apply own_write_prop_set, number_key_not_proto. Qed.

Lemma own_write_proto_absent v ps :
  prop_get "__proto__" ps = None → own_write "__proto__" v ps = ps.
Proof. intros H. unfold own_write. cbn. by rewrite H. Qed.

Lemma prop_get_own_write_eq k v ps :
  k ≠ "__proto__" → prop_get k (own_write k v ps) = Some v.
Proof. intros Hk. rewrite own_write_prop_set by done. apply prop_get_set_eq. Qed.

Lemma prop_get_own_write_ne k k' v ps :
  k ≠ k' → prop_get k' (own_write k v ps) = prop_get k' ps.
Proof.
  intros Hne. unfold own_write.
  destruct (String.eqb k "__proto__"); [destruct (prop_get k ps)|];
    (done || by apply prop_get_set_ne).
Qed.

(** An object without a property [__proto__] of its own never gets one by
    assignment. *)
Lemma prop_get_own_write_proto k v ps :
  prop_get "__proto__" ps = None →
  prop_get "__proto__" (own_write k v ps) = None.
Proof.
  intros H. destruct (String.eqb_spec k "__proto__") as [->|Hne].
  - by rewrite own_write_proto_absent.
  - by rewrite prop_get_own_write_ne.
Qed.

Lemma prop_get_Some_elem k v ps : prop_get k ps = Some v → (k, v) ∈ ps.
Proof.
  induction ps as [|[k' v'] ps IH]; cbn; [done|].
  destruct (String.eqb_spec k' k) as [->|Hne].
  - intros [= ->]. left.
  - intros H. right. by apply IH.
Qed.

Lemma prop_get_None_keys k ps : prop_get k ps = None ↔ k ∉ ps.*1.
Proof.
  induction ps as [|[k' v'] ps IH]; cbn.
  - split; [intros _; apply not_elem_of_nil|done].
  - rewrite not_elem_of_cons. destruct (String.eqb_spec k' k) as [->|Hne].
    + split; [done|]. by intros [? _].
    + rewrite IH. split; [intros ?; split; [congruence|done]|by intros [_ ?]].
Qed.

(** With unique keys, membership decides a read. *)
Lemma prop_get_elem k v ps : NoDup ps.*1 → (k, v) ∈ ps → prop_get k ps = Some v.
Proof.
  induction ps as [|[k' v'] ps IH]; cbn; intros Hnd Hin.
  - by apply elem_of_nil in Hin.
  - apply NoDup_cons in Hnd as [Hk' Hnd].
    apply elem_of_cons in Hin as [[= <- <-]|Hin].
    + by rewrite String.eqb_refl.
    + destruct (String.eqb_spec k' k) as [->|Hne]; [|by apply IH].
      exfalso. apply Hk'. apply list_elem_of_fmap. by exists (k, v).
Qed.

Lemma prop_get_Permutation k ps ps' :
  NoDup ps.*1 → ps ≡ₚ ps' → prop_get k ps = prop_get k ps'.
Proof.
  intros Hnd Hp.
  assert (NoDup ps'.*1) as Hnd' by (by rewrite <- Hp).
  destruct (prop_get k ps) as [v|] eqn:E.
  - symmetry. apply prop_get_elem; [done|].
    rewrite <- Hp. by apply prop_get_Some_elem.
  - symmetry. apply prop_get_None_keys. rewrite <- Hp.
    by apply prop_get_None_keys.
Qed.

(** *** Own-property order *)

Lemma insert_indexed_Permutation e l : insert_indexed e l ≡ₚ e :: l.
Proof.
  induction l as [|x l IH]; cbn; [done|].
  destruct (e.1 <=? x.1)%N; [done|]. rewrite IH. apply Permutation_swap.
Qed.

Lemma sort_indexed_Permutation l : sort_indexed l ≡ₚ l.
Proof.
  induction l as [|x l IH]; cbn; [done|].
  by rewrite insert_indexed_Permutation, IH.
Qed.

Lemma insert_indexed_sorted e l :
  StronglySorted index_le l → StronglySorted index_le (insert_indexed e l).
Proof.
  induction 1 as [|x l Hl IH Hx]; cbn.
  - repeat constructor.
  - destruct (N.leb_spec e.1 x.1) as [Hle|Hgt].
    + constructor; [by constructor|].
      constructor; [done|].
      eapply Forall_impl; [exact Hx|]. unfold index_le. intros; lia.
    + constructor; [done|].
      rewrite insert_indexed_Permutation. constructor; [|done].
      unfold index_le. lia.
Qed.

Lemma sort_indexed_sorted l : StronglySorted index_le (sort_indexed l).
Proof.
  induction l; cbn; [constructor|by apply insert_indexed_sorted].
Qed.

Lemma indexed_entries_snd props :
  (indexed_entries props).*2 = filter (λ kv, ¬ array_index kv.1 = None) props.
Proof.
  unfold indexed_entries. induction props as [|[k v] ps IH]; [done|].
  rewrite filter_cons. cbn.
  destruct (array_index k) as [n|] eqn:E; cbn.
  - rewrite decide_True by done. cbn. by rewrite IH.
  - rewrite decide_False by (by intros []). done.
Qed.

(** [Object.entries] of an object lists each own property once. *)
Lemma own_entries_Permutation props : own_entries props ≡ₚ props.
Proof.
  unfold own_entries.
  rewrite sort_indexed_Permutation, indexed_entries_snd.
  rewrite (comm (++)). apply filter_app_complement.
Qed.

Lemma elem_of_indexed_entries n kv props :
  (n, kv) ∈ indexed_entries props ↔ kv ∈ props ∧ array_index kv.1 = Some n.
Proof.
  unfold indexed_entries. rewrite list_elem_of_omap. split.
  - intros (x & Hx & E). destruct (array_index x.1) eqn:E'; [|done].
    cbn in E. injection E as <- <-. done.
  - intros [Hin E]. exists kv. by rewrite E.
Qed.

(** When every key is an array index, the entries come in ascending index
    order. *)
Lemma own_entries_all_indices props :
  Forall (λ kv, is_index kv.1 = true) props →
  own_entries props = (sort_indexed (indexed_entries props)).*2.
Proof.
  intros Hall. unfold own_entries.
  replace (filter (λ kv, array_index kv.1 = None) props) with (@nil (string * value)).
  { by rewrite app_nil_r. }
  symmetry. induction Hall as [|[k v] ps Hk _ IH]; [done|].
  rewrite filter_cons. cbn in *. unfold is_index in Hk.
  destruct (array_index k); [|done]. by rewrite decide_False.
Qed.

(** In an object whose keys are all array indices, an entry of
    [Object.entries] has a key no greater than the keys of the entries that
    do not come before it. *)
Lemma own_entries_ascending props pre x post :
  Forall (λ kv, is_index kv.1 = true) props →
  own_entries props = pre ++ x :: post →
  ∃ n, array_index x.1 = Some n ∧ x ∈ props ∧
       ∀ kv n', kv ∈ props → kv ∉ pre → array_index kv.1 = Some n' → (n ≤ n')%N.
Proof.
  intros Hall Hown. rewrite own_entries_all_indices in Hown by done.
  apply fmap_app_inv in Hown as (pre' & rest' & -> & Hrest & Hsort).
  symmetry in Hrest.
  apply fmap_cons_inv in Hrest as ([n x'] & post' & -> & -> & ->).
  pose proof (sort_indexed_sorted (indexed_entries props)) as Hsorted.
  rewrite Hsort in Hsorted.
  assert ((n, x') ∈ indexed_entries props) as Hx.
  { rewrite <- sort_indexed_Permutation, Hsort.
    apply elem_of_app. right. left. }
  apply elem_of_indexed_entries in Hx as [Hx Hn].
  exists n. repeat split; [done..|].
  intros kv n' Hkv Hpre Hn'.
  assert ((n', kv) ∈ pre' ++ (n, x') :: post') as Hin.
  { rewrite <- Hsort, sort_indexed_Permutation.
    by apply elem_of_indexed_entries. }
  apply elem_of_app in Hin as [Hin|Hin].
  { exfalso. apply Hpre. apply list_elem_of_fmap. by exists (n', kv). }
  apply elem_of_cons in Hin as [[= -> ->]|Hin]; [done|].
  apply StronglySorted_app_1_r, StronglySorted_inv in Hsorted as [_ Hle].
  rewrite Forall_forall in Hle. by apply (Hle (n', kv)).
Qed.

End JSFacts.

(** * Facts about the component *)
Import JS JSFacts WorkflowRunForm.

Lemma world_eta (w : world) : World (this w) (store w) (trace w) = w.
Proof. by destruct w. Qed.

(** [onValidation(stepId, validation)] replaces the entry of the step, or
    adds one, and writes nothing else. *)
Lemma onValidation_run (w : world) lv pv stepId validation :
  stepValidations (this w) = VRef lv →
  store w !! lv = Some (OObj pv) →
  onValidation stepId validation w =
    (Normal (),
     World (this w)
           (<[lv := OObj (prop_set (number_key stepId) validation pv)]> (store w))
           (trace w)).
Proof.
  intros Hsv Hlv. unfold onValidation, mbind, M_bind, read. cbn.
  rewrite Hsv. unfold set. by rewrite Hlv, own_write_number_key.
Qed.

(** Steps reported out of order are scanned in index order. *)
Example own_entries_order :
  own_entries [("10", VNum 1); ("b", VNum 2); ("2", VNum 3); ("a", VNum 4)]
  = [("2", VNum 3); ("10", VNum 1); ("b", VNum 2); ("a", VNum 4)].
Proof. reflexivity. Qed.

(** The first truthy entry of a list that has one. *)
Lemma first_truthy (l : list (string * value)) :
  Exists (λ kv, truthy kv.2 = true) l →
  ∃ pre x post, l = pre ++ x :: post ∧
                Forall (λ kv, truthy kv.2 = false) pre ∧ truthy x.2 = true.
Proof.
  induction 1 as [x l Hx|x l _ IH].
  - exists [], x, l. by repeat split.
  - destruct (truthy x.2) eqn:Hx.
    + exists [], x, l. by repeat split.
    + destruct IH as (pre & y & post & -> & Hpre & Hy).
      exists (x :: pre), y, post. repeat split; [|done]. by constructor.
Qed.

(** ** The validation scan *)

Lemma scan_validations_clear (entries : list (string * value)) (w : world) :
  Forall (λ kv, truthy kv.2 = false) entries →
  scan_validations entries w = (Normal false, w).
Proof.
  induction 1 as [|[k v] l Hv _ IH]; [done|].
  cbn in *. by rewrite Hv.
Qed.

Lemma scan_validations_blocked pre k la elems post (w : world) :
  Forall (λ kv, truthy kv.2 = false) pre →
  store w !! la = Some (OArr elems) →
  scan_validations (pre ++ (k, VRef la) :: post) w =
    (Normal true,
     World (set_stepScrollTo (VRef (S (length (store w)))) (this w))
           (store w ++ [OArr elems;
                        OObj [("stepId", VStr k);
                              ("stepError", VRef (length (store w)))]])
           (trace w)).
Proof.
  intros Hpre Hla. induction Hpre as [|[k' v'] l Hv _ IH].
  - cbn. unfold mbind, M_bind, slice. rewrite Hla. cbn.
    by rewrite length_app, <- app_assoc, Nat.add_1_r.
  - cbn in *. by rewrite Hv.
Qed.

(** The aborting run of [onExecute]: the world it leaves. *)
Lemma onExecute_blocked model (w : world) lv pv pre k la elems post :
  stepValidations (this w) = VRef lv →
  store w !! lv = Some (OObj pv) →
  own_entries pv = pre ++ (k, VRef la) :: post →
  Forall (λ kv, truthy kv.2 = false) pre →
  store w !! la = Some (OArr elems) →
  onExecute model w =
    (Normal (),
     World (set_stepScrollTo (VRef (S (length (store w)))) (this w))
           (store w ++ [OArr elems;
                        OObj [("stepId", VStr k);
                              ("stepError", VRef (length (store w)))]])
           (trace w)).
Proof.
  intros Hsv Hlv Hown Hpre Hla.
  unfold onExecute, mbind, M_bind, read, lift. cbn.
  rewrite Hsv. cbn. unfold heap_get. rewrite Hlv. cbn. rewrite Hown.
  by rewrite (scan_validations_blocked _ _ _ elems).
Qed.

(** C1 (as amended): whenever some validation entry is truthy, every truthy
    entry being a list (the empty list included) and every key a step
    index, [onExecute] returns without an event, so without calling
    [invokeWorkflow], and the scroll target it records names the lowest
    step index whose entry is truthy, with a copy of that entry: a new
    array, distinct from the validation list, with the elements of that
    list. *)
Theorem onExecute_lowest_truthy_wins model (w : world) lv pv :
  stepValidations (this w) = VRef lv →
  store w !! lv = Some (OObj pv) →
  Forall (λ kv, is_index kv.1 = true) pv →
  Forall (λ kv, truthy kv.2 = true → is_array (store w) kv.2 = true) pv →
  Exists (λ kv, truthy kv.2 = true) pv →
  ∃ n la elems w',
    onExecute model w = (Normal (), w') ∧
    trace w' = trace w ∧
    (index_key n, VRef la) ∈ pv ∧
    store w !! la = Some (OArr elems) ∧
    (∀ k' v' n', (k', v') ∈ pv → truthy v' = true →
                 array_index k' = Some n' → (n ≤ n')%N) ∧
    ∃ lt lc,
      stepScrollTo (this w') = VRef lt ∧
      store w' !! lt = Some (OObj [("stepId", VStr (index_key n));
                                   ("stepError", VRef lc)]) ∧
      store w !! lc = None ∧ lc ≠ la ∧
      store w' !! lc = Some (OArr elems) ∧
      store w' !! la = Some (OArr elems).
Proof.
  intros Hsv Hlv Hidx Harr Hex.
  rewrite <- (own_entries_Permutation pv) in Hex.
  apply first_truthy in Hex as (pre & [k v] & post & Hown & Hpre & Hv).
  destruct (own_entries_ascending _ _ _ _ Hidx Hown) as (n & Hn & Hin & Hmin).
  cbn in Hn, Hv. apply array_index_Some in Hn as [-> Hn].
  rewrite Forall_forall in Harr. pose proof (Harr _ Hin Hv) as Hv'. cbn in Hv'.
  destruct v as [| | | | |la]; try done. cbn in Hv'.
  destruct (store w !! la) as [[|elems]|] eqn:Hla; try done.
  exists n, la, elems. eexists. split.
  { by eapply onExecute_blocked. }
  cbn. repeat split; [done..| |].
  - intros k' v' n' Hin' Hv'' Hn'. apply (Hmin (k', v')); [done| |done].
    intros Hp. rewrite Forall_forall in Hpre. apply Hpre in Hp. cbn in Hp.
    congruence.
  - pose proof (lookup_lt_Some _ _ _ Hla) as Hlt.
    exists (S (length (store w))), (length (store w)). split; [done|].
    split; [|split; [|split; [|split]]].
    + rewrite lookup_app_r by lia. by rewrite Nat.sub_succ_l, Nat.sub_diag.
    + by apply lookup_ge_None.
    + lia.
    + rewrite lookup_app_r by lia. by rewrite Nat.sub_diag.
    + by rewrite lookup_app_l.
Qed.

Lemma onExecute_lowest_truthy_wins_witness :
  ∃ w', onExecute example_model world_three_steps = (Normal (), w') ∧
        trace w' = [] ∧
        store world_three_steps !! 6%nat = Some (OArr [VStr "x"; VStr "y"]) ∧
        ∃ lt lc,
          stepScrollTo (this w') = VRef lt ∧
          store w' !! lt = Some (OObj [("stepId", VStr "3");
                                       ("stepError", VRef lc)]) ∧
          store world_three_steps !! lc = None ∧ lc ≠ 6%nat ∧
          store w' !! lc = Some (OArr [VStr "x"; VStr "y"]).
Proof.
  destruct (onExecute_lowest_truthy_wins example_model world_three_steps 1%nat
              [("10", VRef 5%nat); ("2", VNull); ("3", VRef 6%nat)])
    as (n & la & elems & w' & Hrun & Htr & Hin & Hla & Hmin & lt & lc
        & H1 & H2 & H3 & H4 & H5 & H6).
  - reflexivity.
  - reflexivity.
  - repeat constructor.
  - repeat constructor; cbn; done.
  - left. reflexivity.
  - exists w'. vm_compute in Hrun. injection Hrun as <-.
    split; [reflexivity|]. split; [reflexivity|]. split; [reflexivity|].
    exists 8%nat, 7%nat. repeat split. lia.
Defined.

(** C1 as the specification states it fails for validations
    [{0: [], 1: ["required"]}]: step 1 is the lowest step with a non-empty
    entry, and the scroll target names step 0. *)
Lemma stated_lowest_nonempty_wins_fails :
  ¬ stated_lowest_nonempty_wins example_model world_empty_list_first.
Proof.
  intros H.
  destruct (H 1%nat [("0", VRef 5%nat); ("1", VRef 6%nat)])
    as (_ & n & v & Hid & Hin & Hv & _); [done|done|by right; left|].
  vm_compute in Hid. injection Hid as Hid.
  change "0" with (index_key 0) in Hid. apply index_key_inj in Hid as <-.
  change (index_key 0) with "0" in Hin.
  apply elem_of_cons in Hin as [[= ->]|Hin]; [done|].
  apply elem_of_cons in Hin as [[=]|Hin]. by apply elem_of_nil in Hin.
Qed.

(** C9: an aborting [onExecute] changes [stepScrollTo] and nothing else of
    the component, issues no event, keeps every object of the heap as it
    was, and stores as [stepError] a new array, distinct from the
    validation list, with the elements of that list. *)
Theorem onExecute_abort_frame model (w : world) lv pv :
  stepValidations (this w) = VRef lv →
  store w !! lv = Some (OObj pv) →
  Forall (λ kv, truthy kv.2 = true → is_array (store w) kv.2 = true) pv →
  Exists (λ kv, truthy kv.2 = true) pv →
  ∃ k la elems lt lc w',
    onExecute model w = (Normal (), w') ∧
    (k, VRef la) ∈ pv ∧ store w !! la = Some (OArr elems) ∧
    this w' = set_stepScrollTo (VRef lt) (this w) ∧
    showExecuting (this w') = showExecuting (this w) ∧
    trace w' = trace w ∧
    store w `prefix_of` store w' ∧
    store w' !! lt = Some (OObj [("stepId", VStr k); ("stepError", VRef lc)]) ∧
    store w !! lc = None ∧ lc ≠ la ∧
    store w' !! lc = Some (OArr elems).
Proof.
  intros Hsv Hlv Harr Hex.
  rewrite <- (own_entries_Permutation pv) in Hex.
  apply first_truthy in Hex as (pre & [k v] & post & Hown & Hpre & Hv).
  assert ((k, v) ∈ pv) as Hin.
  { rewrite <- (own_entries_Permutation pv), Hown.
    apply elem_of_app. right. left. }
  rewrite Forall_forall in Harr. pose proof (Harr _ Hin Hv) as Hv'. cbn in Hv, Hv'.
  destruct v as [| | | | |la]; try done. cbn in Hv'.
  destruct (store w !! la) as [[|elems]|] eqn:Hla; try done.
  exists k, la, elems, (S (length (store w))), (length (store w)).
  eexists. split.
  { by eapply onExecute_blocked. }
  cbn. repeat split; [done..| | | | |].
  - by eexists.
  - rewrite lookup_app_r by lia. by rewrite Nat.sub_succ_l, Nat.sub_diag.
  - by apply lookup_ge_None.
  - apply lookup_lt_Some in Hla. lia.
  - rewrite lookup_app_r by lia. by rewrite Nat.sub_diag.
Qed.

Lemma onExecute_abort_frame_witness :
  ∃ w', onExecute example_model world_null_first = (Normal (), w') ∧
        this w' = set_stepScrollTo (VRef 7%nat) (this world_null_first) ∧
        showExecuting (this w') = false ∧
        trace w' = [] ∧
        store world_null_first `prefix_of` store w' ∧
        store w' !! 7%nat = Some (OObj [("stepId", VStr "1");
                                         ("stepError", VRef 6%nat)]) ∧
        store world_null_first !! 6%nat = None ∧
        store world_null_first !! 5%nat = Some (OArr [VStr "required"]) ∧
        store w' !! 6%nat = Some (OArr [VStr "required"]).
Proof.
  destruct (onExecute_abort_frame example_model world_null_first 1%nat
              [("0", VNull); ("1", VRef 5%nat)])
    as (k & la & elems & lt & lc & w' & Hrun & _ & _ & _ & _ & _ & Hpre & _).
  - reflexivity.
  - reflexivity.
  - repeat constructor; cbn; done.
  - right. left. reflexivity.
  - exists w'. vm_compute in Hrun. injection Hrun as <-.
    repeat split. exact Hpre.
Defined.

(** C7 (as amended): with validations [{0: null, 1: ["required"]}],
    [onExecute] returns without an event and records
    [{stepId: "1", stepError: ["required"]}], the list being a new array;
    with validations [{0: [], 1: ["required"]}] the empty list of step 0 is
    truthy and the record is [{stepId: "0", stepError: []}]. *)
Theorem onExecute_null_is_valid_empty_list_is_not model :
  (∃ w', onExecute model world_null_first = (Normal (), w') ∧
         trace w' = [] ∧
         get (store w') (stepScrollTo (this w')) "stepId" = Normal (VStr "1") ∧
         loose_eq_number (VStr "1") 1 = Some true ∧
         ∃ lc, get (store w') (stepScrollTo (this w')) "stepError"
                 = Normal (VRef lc) ∧
               store world_null_first !! lc = None ∧
               store w' !! lc = Some (OArr [VStr "required"])) ∧
  (∃ w', onExecute model world_empty_list_first = (Normal (), w') ∧
         trace w' = [] ∧
         get (store w') (stepScrollTo (this w')) "stepId" = Normal (VStr "0") ∧
         ∃ lc, get (store w') (stepScrollTo (this w')) "stepError"
                 = Normal (VRef lc) ∧
               store w' !! lc = Some (OArr [])).
Proof.
  split.
  - eexists. split; [vm_compute; reflexivity|].
    repeat split. exists 6%nat. repeat split.
  - eexists. split; [vm_compute; reflexivity|].
    repeat split. exists 7%nat. repeat split.
Qed.

(** C7 as the specification states it fails: for validations
    [{0: [], 1: ["required"]}] the recorded step is not step 1. *)
Lemma stated_empty_list_is_valid_fails :
  ¬ stated_empty_list_is_valid example_model.
Proof.
  intros (_ & sid & lc & Hid & Heq & _).
  vm_compute in Hid. injection Hid as <-. vm_compute in Heq. done.
Qed.

(** ** The submitting run *)

Lemma set_run (w : world) l props k v :
  store w !! l = Some (OObj props) →
  set (VRef l) k v w =
    (Normal (),
     World (this w) (<[l := OObj (own_write k v props)]> (store w)) (trace w)).
Proof. intros H. unfold set. by rewrite H. Qed.

(** The inner loop writes [filter_inputs_from] into [stepDataFiltered] and
    touches nothing else. *)
Lemma keep_unconnected_run model stepId lf inputs : ∀ (w : world) acc,
  store w !! lf = Some (OObj acc) →
  forEach (keep_unconnected model stepId (VRef lf)) inputs w =
    (Normal (),
     World (this w)
           (<[lf := OObj (filter_inputs_from model stepId acc inputs)]> (store w))
           (trace w)).
Proof.
  induction inputs as [|[name v] inputs IH]; intros w acc Hlf.
  - cbn. rewrite list_insert_id by done. by rewrite world_eta.
  - cbn [forEach]. unfold mbind at 1, M_bind at 1.
    unfold keep_unconnected at 1, filter_inputs_from. cbn [foldl fst snd].
    destruct (isConnected model stepId name); cbn [negb].
    + cbn. by rewrite (IH w acc).
    + rewrite (set_run _ _ acc) by done.
      rewrite (IH _ (own_write name v acc)).
      * cbn. by rewrite list_insert_insert_eq.
      * cbn. apply list_lookup_insert_eq. by eapply lookup_lt_Some.
Qed.

(** What [filter_inputs] keeps: the inputs that are not connected, with
    their values, but for an input named [__proto__]. *)
Lemma prop_get_filter_inputs_from model stepId name inputs : ∀ acc,
  NoDup inputs.*1 →
  name ≠ "__proto__" →
  prop_get name (filter_inputs_from model stepId acc inputs) =
    match prop_get name inputs with
    | Some v => if isConnected model stepId name then prop_get name acc else Some v
    | None => prop_get name acc
    end.
Proof.
  induction inputs as [|[k v] inputs IH]; intros acc Hnd Hname; [done|].
  apply NoDup_cons in Hnd as [Hk Hnd]. cbn in Hk.
  unfold filter_inputs_from in *. cbn [foldl fst snd].
  rewrite IH by done. cbn [prop_get].
  destruct (String.eqb_spec k name) as [->|Hne].
  - apply prop_get_None_keys in Hk. rewrite Hk.
    destruct (isConnected model stepId name); cbn [negb]; [done|].
    by apply prop_get_own_write_eq.
  - assert (prop_get name
              (if negb (isConnected model stepId k) then own_write k v acc else acc)
            = prop_get name acc) as ->; [|done].
    destruct (isConnected model stepId k); cbn [negb]; [done|].
    by apply prop_get_own_write_ne.
Qed.

Lemma prop_get_filter_inputs_from_proto model stepId inputs : ∀ acc,
  prop_get "__proto__" acc = None →
  prop_get "__proto__" (filter_inputs_from model stepId acc inputs) = None.
Proof.
  induction inputs as [|[k v] inputs IH]; intros acc Hacc; [done|].
  unfold filter_inputs_from in *. cbn [foldl fst snd]. apply IH.
  destruct (isConnected model stepId k); cbn [negb]; [done|].
  by apply prop_get_own_write_proto.
Qed.

Lemma prop_get_filter_inputs model stepId name inputs :
  NoDup inputs.*1 →
  prop_get name (filter_inputs model stepId (own_entries inputs)) =
    if isConnected model stepId name then None
    else if String.eqb name "__proto__" then None
    else prop_get name inputs.
Proof.
  intros Hnd. unfold filter_inputs.
  destruct (String.eqb_spec name "__proto__") as [->|Hname].
  { rewrite prop_get_filter_inputs_from_proto by done.
    by destruct (isConnected model stepId "__proto__"). }
  rewrite prop_get_filter_inputs_from
    by (done || by rewrite own_entries_Permutation).
  rewrite <- (prop_get_Permutation name inputs (own_entries inputs))
    by (done || by rewrite own_entries_Permutation).
  cbn. destruct (prop_get name inputs), (isConnected model stepId name); done.
Qed.

(** Sequencing, one step at a time. *)
Lemma bind_run {A B} (m : M A) (f : A → M B) (w w' : world) a :
  m w = (Normal a, w') → (m ≫= f) w = f a w'.
Proof. intros H. unfold mbind, M_bind. by rewrite H. Qed.

(** One round of the outer loop. *)
Lemma filter_step_run model (w : world) lp pacc k li inputs :
  store w !! lp = Some (OObj pacc) →
  store w !! li = Some (OObj inputs) →
  filter_step model (VRef lp) (k, VRef li) w =
    (Normal (),
     World (this w)
           (<[lp := OObj (own_write k (VRef (length (store w))) pacc)]>
              (store w ++ [OObj (filter_inputs model k (own_entries inputs))]))
           (trace w)).
Proof.
  intros Hlp Hli.
  pose proof (lookup_lt_Some _ _ _ Hlp) as Hlp'.
  pose proof (lookup_lt_Some _ _ _ Hli) as Hli'.
  unfold filter_step.
  erewrite bind_run by reflexivity.
  erewrite bind_run.
  2:{ unfold lift, Object_entries, heap_get. cbn.
      rewrite lookup_app_l by done. rewrite Hli. reflexivity. }
  erewrite bind_run.
  2:{ apply (keep_unconnected_run _ _ _ _ _ []). cbn.
      rewrite lookup_app_r by lia. by rewrite Nat.sub_diag. }
  rewrite (set_run _ _ pacc).
  2:{ cbn. rewrite list_lookup_insert_ne by lia.
      by rewrite lookup_app_l. }
  cbn. do 2 f_equal.
  rewrite insert_app_r_alt by lia. by rewrite Nat.sub_diag.
Qed.

(** The outer loop: every step gets a new object holding its filtered
    inputs, [parameters] gets one property per step (none for a step
    recorded as [__proto__]), and no other object changes. *)
Lemma filter_steps_run model lp steps : ∀ (w : world) pacc,
  store w !! lp = Some (OObj pacc) →
  Forall (λ kv, ∃ li inputs, kv.2 = VRef li ∧ li ≠ lp ∧
                             store w !! li = Some (OObj inputs)) steps →
  ∃ w' pfin,
    forEach (filter_step model (VRef lp)) steps w = (Normal (), w') ∧
    this w' = this w ∧ trace w' = trace w ∧
    (∀ l o, l ≠ lp → store w !! l = Some o → store w' !! l = Some o) ∧
    store w' !! lp = Some (OObj pfin) ∧
    (∀ k, k ∉ steps.*1 → prop_get k pfin = prop_get k pacc) ∧
    (NoDup steps.*1 →
     ∀ k li inputs, (k, VRef li) ∈ steps → store w !! li = Some (OObj inputs) →
       k ≠ "__proto__" →
       ∃ lf, prop_get k pfin = Some (VRef lf) ∧ store w !! lf = None ∧
             store w' !! lf
               = Some (OObj (filter_inputs model k (own_entries inputs)))) ∧
    (prop_get "__proto__" pacc = None → prop_get "__proto__" pfin = None).
Proof.
  induction steps as [|[k v] steps IH]; intros w pacc Hlp Hsteps.
  { exists w, pacc. repeat split; try done.
    intros _ k li inputs Hin. by apply elem_of_nil in Hin. }
  apply Forall_cons in Hsteps as [(li & inputs & Hv & Hne & Hli) Hsteps].
  cbn in Hv. subst v.
  pose proof (lookup_lt_Some _ _ _ Hlp) as Hlp'.
  pose proof (lookup_lt_Some _ _ _ Hli) as Hli'.
  pose proof (filter_step_run model w lp pacc k li inputs Hlp Hli) as Hstep.
  set (lf := length (store w)) in *.
  set (w1 := World (this w)
               (<[lp := OObj (own_write k (VRef lf) pacc)]>
                  (store w ++ [OObj (filter_inputs model k (own_entries inputs))]))
               (trace w)) in *.
  assert (∀ l o, l ≠ lp → store w !! l = Some o → store w1 !! l = Some o)
    as Hframe1.
  { intros l o Hl Ho. cbn. rewrite list_lookup_insert_ne by done.
    rewrite lookup_app_l by (by eapply lookup_lt_Some). done. }
  destruct (IH w1 (own_write k (VRef lf) pacc)) as
    (w' & pfin & Hrun & Hthis & Htrace & Hframe & Hfin & Hother & Hsteps'
     & Hproto).
  { cbn. apply list_lookup_insert_eq. rewrite length_app. lia. }
  { eapply Forall_impl; [exact Hsteps|].
    intros kv (li' & inputs' & ? & ? & ?). exists li', inputs'.
    repeat split; [done..|]. by apply Hframe1. }
  exists w', pfin. repeat split; try done.
  - cbn [forEach]. by erewrite bind_run by exact Hstep.
  - intros l o Hl Ho. by apply Hframe, Hframe1.
  - intros k' Hk'. cbn in Hk'. apply not_elem_of_cons in Hk' as [Hkk Hk'].
    rewrite Hother by done. by apply prop_get_own_write_ne.
  - intros Hnd k' li' inputs' Hin Hli'' Hk''.
    cbn in Hnd. apply NoDup_cons in Hnd as [Hk Hnd].
    apply elem_of_cons in Hin as [[= -> ->]|Hin].
    + exists lf. rewrite Hother by done. rewrite prop_get_own_write_eq by done.
      repeat split.
      * by apply lookup_ge_None.
      * apply Hframe; [subst lf; lia|]. cbn.
        rewrite list_lookup_insert_ne by (subst lf; lia).
        rewrite lookup_app_r by (subst lf; lia).
        subst lf. rewrite Nat.sub_diag. cbn. congruence.
    + rewrite Forall_forall in Hsteps.
      destruct (Hsteps _ Hin) as (li'' & ? & [= <-] & Hne' & _).
      destruct (Hsteps' Hnd k' li' inputs' Hin) as (lf' & Hget & Hnew & Hobj);
        [by apply Hframe1|done|].
      exists lf'. repeat split; [done| |done].
      apply lookup_ge_None. apply lookup_ge_None in Hnew. cbn in Hnew.
      rewrite length_insert, length_app in Hnew. lia.
  - intros Hacc. by apply Hproto, prop_get_own_write_proto.
Qed.

Lemma history_name_run (w : world) lh hprops :
  historyData (this w) = VRef lh →
  store w !! lh = Some (OObj hprops) →
  history_name w =
    (Normal (default VUndef (prop_get "new_history|name" hprops)), w).
Proof.
  intros Hhd Hlh. unfold history_name.
  erewrite bind_run by reflexivity.
  unfold lift, get, heap_get. by rewrite Hhd, Hlh.
Qed.

Section Submission.
Variable model : model_t.
Variable w : world.
Variables lv ls lh : nat.
Variables pv ps hprops : list (string * value).
Hypothesis Hsv : stepValidations (this w) = VRef lv.
Hypothesis Hlv : store w !! lv = Some (OObj pv).
Hypothesis Hvalid : Forall (λ kv, truthy kv.2 = false) pv.
Hypothesis Hsd : stepData (this w) = VRef ls.
Hypothesis Hls : store w !! ls = Some (OObj ps).
Hypothesis Hsteps : NoDup ps.*1.
Hypothesis Hinputs : Forall (λ kv, is_object (store w) kv.2 = true) ps.
Hypothesis Hhd : historyData (this w) = VRef lh.
Hypothesis Hlh : store w !! lh = Some (OObj hprops).

(** The value the form recorded under [new_history|name]. *)
Let name : value := default VUndef (prop_get "new_history|name" hprops).

(** The submitting run of [onExecute]: the request it sends and the world
    it leaves. *)
Lemma onExecute_submits :
  ∃ w' params,
    onExecute model w = (Normal (), w') ∧
    this w' = set_showExecuting true (this w) ∧
    trace w' =
      trace w ++
      [Busy true;
       InvokeWorkflow (workflowId model)
         (JobDef (if truthy name then name else VNull)
                 (if negb (truthy name) then historyId model else VNull)
                 (resourceData (this w)) (wpData (this w))
                 (useCachedJobs (this w)) (VRef (length (store w)))
                 (VBool true) (VBool true) (VBool false))] ∧
    (∀ l o, store w !! l = Some o → store w' !! l = Some o) ∧
    store w' !! length (store w) = Some (OObj params) ∧
    (∀ k, k ∉ ps.*1 → prop_get k params = None) ∧
    (∀ k li inputs, (k, VRef li) ∈ ps → store w !! li = Some (OObj inputs) →
       k ≠ "__proto__" →
       ∃ lf, prop_get k params = Some (VRef lf) ∧ store w !! lf = None ∧
             store w' !! lf
               = Some (OObj (filter_inputs model k (own_entries inputs)))) ∧
    prop_get "__proto__" params = None.
Proof.
  set (lp := length (store w)).
  set (w1 := World (this w) (store w ++ [OObj []]) (trace w)).
  assert (∀ l o, store w !! l = Some o → l ≠ lp ∧ store w1 !! l = Some o)
    as Hframe1.
  { intros l o Ho. pose proof (lookup_lt_Some _ _ _ Ho). split; [subst lp; lia|].
    cbn. by rewrite lookup_app_l. }
  destruct (filter_steps_run model lp (own_entries ps) w1 []) as
    (w2 & params & Hrun & Hthis & Htrace & Hframe & Hparams & Hother & Hsteps'
     & Hproto).
  { cbn. rewrite lookup_app_r by (subst lp; lia). subst lp.
    by rewrite Nat.sub_diag. }
  { rewrite own_entries_Permutation.
    eapply Forall_impl; [exact Hinputs|]. intros [k v] Hv. cbn in *.
    destruct v as [| | | | |li]; try done. cbn in Hv.
    destruct (store w !! li) as [[inputs|]|] eqn:Hli; try done.
    exists li, inputs. destruct (Hframe1 _ _ Hli). done. }
  assert (history_name w2 = (Normal name, w2)) as Hname.
  { apply (history_name_run _ lh); [by rewrite Hthis|].
    destruct (Hframe1 _ _ Hlh). by apply Hframe. }
  assert ((if truthy name then history_name else mret VNull) w2
          = (Normal (if truthy name then name else VNull), w2)) as Hname'.
  { destruct (truthy name); [exact Hname|reflexivity]. }
  eexists _, params. split.
  { unfold onExecute.
    erewrite bind_run by reflexivity. rewrite Hsv.
    erewrite bind_run
      by (unfold lift, Object_entries, heap_get; rewrite Hlv; reflexivity).
    erewrite bind_run
      by (apply scan_validations_clear; by rewrite own_entries_Permutation).
    cbv beta iota.
    erewrite bind_run by reflexivity.
    erewrite bind_run by reflexivity. cbn [this]. rewrite Hsd.
    erewrite bind_run.
    2:{ unfold lift, Object_entries, heap_get. cbn [store].
        change (store w ++ [OObj []]) with (store w1).
        destruct (Hframe1 _ _ Hls) as [_ ->]. reflexivity. }
    erewrite bind_run by exact Hrun.
    erewrite bind_run by exact Hname. cbv beta.
    erewrite bind_run by exact Hname'. cbv beta.
    erewrite bind_run by exact Hname.
    do 3 erewrite bind_run by reflexivity.
    reflexivity. }
  cbn. rewrite Hthis, Htrace. cbn. rewrite <- app_assoc. cbn.
  repeat split; try done.
  - intros l o Ho. destruct (Hframe1 _ _ Ho). by apply Hframe.
  - intros k Hk. rewrite Hother; [done|]. by rewrite own_entries_Permutation.
  - intros k li inputs Hin Hli Hk.
    destruct (Hsteps' ltac:(by rewrite own_entries_Permutation) k li inputs)
      as (lf & ? & Hnew & ?).
    + by rewrite own_entries_Permutation.
    + by destruct (Hframe1 _ _ Hli).
    + done.
    + exists lf. repeat split; [done| |done].
      apply lookup_ge_None. apply lookup_ge_None in Hnew. cbn in Hnew.
      rewrite length_app in Hnew. lia.
  - by apply Hproto.
Qed.

(** C2 (as amended): in the request [onExecute] sends, the parameter map
    of every step has no entry for an input the model reports as connected,
    none for an input named [__proto__] (the assignment
    [stepDataFiltered[inputName] = inputValue] goes to the accessor of
    [Object.prototype] and adds no property), and has every other recorded
    input with its recorded value; the map of the step is a new object.
    The same holds one level up: [parameters] has an entry for every step
    but one recorded as [__proto__]. *)
Theorem onExecute_omits_connected_inputs :
  ∃ w' jd lp params,
    onExecute model w = (Normal (), w') ∧
    trace w' = trace w ++ [Busy true; InvokeWorkflow (workflowId model) jd] ∧
    parameters jd = VRef lp ∧
    store w' !! lp = Some (OObj params) ∧
    prop_get "__proto__" params = None ∧
    ∀ stepId li inputs,
      (stepId, VRef li) ∈ ps →
      stepId ≠ "__proto__" →
      store w !! li = Some (OObj inputs) →
      NoDup inputs.*1 →
      ∃ lf filtered,
        prop_get stepId params = Some (VRef lf) ∧
        store w !! lf = None ∧
        store w' !! lf = Some (OObj filtered) ∧
        ∀ inputName,
          prop_get inputName filtered =
            if isConnected model stepId inputName then None
            else if String.eqb inputName "__proto__" then None
            else prop_get inputName inputs.
Proof.
  destruct onExecute_submits as
    (w' & params & Hrun & _ & Htrace & _ & Hparams & _ & Hfiltered & Hproto).
  exists w'. eexists _, (length (store w)), params.
  repeat split; [done..|].
  intros stepId li inputs Hin Hstep Hli Hnd.
  destruct (Hfiltered stepId li inputs Hin Hli Hstep) as (lf & Hget & Hnew & Hlf).
  exists lf. eexists. repeat split; [done..|].
  intros inputName. by apply prop_get_filter_inputs.
Qed.

(** C3 (as amended): the history fields of the request follow the
    truthiness of the recorded new-history name. A truthy name, so a
    non-empty string, is sent as [new_history_name] with [history_id =
    null]; a name that is absent, the empty string, [null] or otherwise
    falsy gives [new_history_name = null] and [history_id =
    model.historyId], whatever the model holds there. The two fields are
    never both active, and exactly one of them is active precisely when
    the name is truthy or the model has a history id. *)
Theorem onExecute_history_target :
  ∃ w' jd,
    onExecute model w = (Normal (), w') ∧
    trace w' = trace w ++ [Busy true; InvokeWorkflow (workflowId model) jd] ∧
    (truthy name = true →
     new_history_name jd = name ∧ history_id jd = VNull) ∧
    (truthy name = false →
     new_history_name jd = VNull ∧ history_id jd = historyId model) ∧
    (∀ s, prop_get "new_history|name" hprops = Some (VStr s) → s ≠ "" →
          new_history_name jd = VStr s ∧ history_id jd = VNull) ∧
    (prop_get "new_history|name" hprops = None
     ∨ prop_get "new_history|name" hprops = Some (VStr "")
     ∨ prop_get "new_history|name" hprops = Some VNull
     ∨ prop_get "new_history|name" hprops = Some VUndef →
     new_history_name jd = VNull ∧ history_id jd = historyId model) ∧
    active (new_history_name jd) && active (history_id jd) = false ∧
    xorb (active (new_history_name jd)) (active (history_id jd))
      = truthy name || active (historyId model).
Proof.
  destruct onExecute_submits as (w' & params & Hrun & _ & Htrace & _).
  exists w'. eexists. split; [done|]. split; [done|]. cbn. subst name.
  split; [|split; [|split; [|split; [|split]]]].
  - by intros ->.
  - by intros ->.
  - intros s Hs Hne. rewrite Hs. cbn.
    by destruct (String.eqb_spec s "").
  - by intros [-> | [-> | [-> | ->]]].
  - destruct (truthy _); cbn; [apply andb_false_r|done].
  - destruct (default VUndef (prop_get "new_history|name" hprops)) as [| |b|n|s|l];
      cbn; try done.
    + by destruct b.
    + by destruct (n =? 0).
    + by destruct (String.eqb s "").
Qed.

(** C5 (as amended): when every validation entry is falsy, the recorded
    step inputs are objects and the history options are an object,
    [onExecute] calls [invokeWorkflow] exactly once, and [showExecuting]
    is set to [true] just before the call. *)
Theorem onExecute_submits_once :
  ∃ w' jd,
    onExecute model w = (Normal (), w') ∧
    trace w' = trace w ++ [Busy true; InvokeWorkflow (workflowId model) jd] ∧
    showExecuting (this w') = true.
Proof.
  destruct onExecute_submits as (w' & params & Hrun & Hthis & Htrace & _).
  exists w'. eexists. repeat split; [done..|]. by rewrite Hthis.
Qed.

End Submission.

Lemma onExecute_omits_connected_inputs_witness :
  (∃ w' jd,
     onExecute example_model world_two_inputs = (Normal (), w') ∧
     trace w' = [Busy true; InvokeWorkflow (VStr "wf1") jd] ∧
     parameters jd = VRef 8%nat ∧
     store w' !! 8%nat = Some (OObj [("0", VRef 9%nat); ("1", VRef 10%nat)]) ∧
     store w' !! 9%nat = Some (OObj [("b", VNum 2)]) ∧
     store w' !! 10%nat = Some (OObj [("c", VNum 3)])) ∧
  (∃ w' jd,
     onExecute example_model world_proto_input = (Normal (), w') ∧
     trace w' = [Busy true; InvokeWorkflow (VStr "wf1") jd] ∧
     parameters jd = VRef 6%nat ∧
     store w' !! 6%nat = Some (OObj [("0", VRef 7%nat)]) ∧
     store w' !! 7%nat = Some (OObj [("b", VNum 2)])).
Proof.
  split.
  - destruct (onExecute_omits_connected_inputs example_model world_two_inputs
                1%nat 0%nat 7%nat
                [("0", VNull)] [("0", VRef 5%nat); ("1", VRef 6%nat)]
                [("new_history|check", VStr "true");
                 ("new_history|name", VStr "Results")])
      as (w' & jd & lp & params & Hrun & Htrace & _);
      [reflexivity|reflexivity|repeat constructor|reflexivity|reflexivity
      |compute_done|repeat constructor|reflexivity|reflexivity|].
    exists w', jd. vm_compute in Hrun. injection Hrun as <-.
    vm_compute in Htrace. injection Htrace as <-. repeat split.
  - destruct (onExecute_omits_connected_inputs example_model world_proto_input
                1%nat 0%nat 4%nat [] [("0", VRef 5%nat)] [])
      as (w' & jd & lp & params & Hrun & Htrace & _);
      [reflexivity|reflexivity|constructor|reflexivity|reflexivity
      |compute_done|repeat constructor|reflexivity|reflexivity|].
    exists w', jd. vm_compute in Hrun. injection Hrun as <-.
    vm_compute in Htrace. injection Htrace as <-. repeat split.
Defined.

Lemma onExecute_history_target_witness :
  (∃ w' jd,
     onExecute example_model world_two_inputs = (Normal (), w') ∧
     trace w' = [Busy true; InvokeWorkflow (VStr "wf1") jd] ∧
     new_history_name jd = VStr "Results" ∧ history_id jd = VNull) ∧
  (∃ w' jd,
     onExecute example_model world_current_history = (Normal (), w') ∧
     trace w' = [Busy true; InvokeWorkflow (VStr "wf1") jd] ∧
     new_history_name jd = VNull ∧ history_id jd = VStr "h1") ∧
  (∃ w' jd,
     onExecute example_model_no_history world_current_history
       = (Normal (), w') ∧
     trace w' = [Busy true; InvokeWorkflow (VStr "wf1") jd] ∧
     new_history_name jd = VNull ∧ history_id jd = VNull).
Proof.
  split; [|split].
  - destruct (onExecute_history_target example_model world_two_inputs
                1%nat 0%nat 7%nat
                [("0", VNull)] [("0", VRef 5%nat); ("1", VRef 6%nat)]
                [("new_history|check", VStr "true");
                 ("new_history|name", VStr "Results")])
      as (w' & jd & Hrun & Htrace & _ & _ & Hnew & _);
      [reflexivity|reflexivity|repeat constructor|reflexivity|reflexivity
      |compute_done|repeat constructor|reflexivity|reflexivity|].
    exists w', jd. destruct (Hnew "Results") as [? ?]; [reflexivity|done|].
    repeat split; [done|by rewrite Htrace|done..].
  - destruct (onExecute_history_target example_model world_current_history
                1%nat 0%nat 8%nat
                [("0", VNull)] [("0", VRef 5%nat); ("1", VRef 6%nat)]
                [("new_history|check", VStr "false")])
      as (w' & jd & Hrun & Htrace & _ & _ & _ & Hcur & _);
      [reflexivity|reflexivity|repeat constructor|reflexivity|reflexivity
      |compute_done|repeat constructor|reflexivity|reflexivity|].
    exists w', jd. destruct Hcur as [? ?]; [by left|].
    repeat split; [done|by rewrite Htrace|done..].
  - destruct (onExecute_history_target example_model_no_history
                world_current_history 1%nat 0%nat 8%nat
                [("0", VNull)] [("0", VRef 5%nat); ("1", VRef 6%nat)]
                [("new_history|check", VStr "false")])
      as (w' & jd & Hrun & Htrace & _ & _ & _ & Hcur & _);
      [reflexivity|reflexivity|repeat constructor|reflexivity|reflexivity
      |compute_done|repeat constructor|reflexivity|reflexivity|].
    exists w', jd. destruct Hcur as [? ?]; [by left|].
    repeat split; [done|by rewrite Htrace|done..].
Defined.

(** C3 as the specification states it fails for a model without a history
    id when no new-history name was recorded: the request has
    [new_history_name = null] and [history_id = null], so neither field is
    active. *)
Lemma stated_history_target_fails :
  ¬ stated_history_target example_model_no_history world_current_history.
Proof.
  intros H.
  destruct (H 8%nat [("new_history|check", VStr "false")])
    as (w' & jd & Hrun & Htrace & Hone & _); [reflexivity|reflexivity|].
  vm_compute in Hrun. injection Hrun as <-.
  vm_compute in Htrace. injection Htrace as <-.
  vm_compute in Hone. discriminate.
Qed.

(** C2 as the specification states it fails for inputs
    [{0: {["__proto__"]: 5, b: 2}}]: the input [__proto__] of step 0 is not
    connected, and the parameter map of step 0 in the request is
    [{b: 2}]. *)
Lemma stated_inputs_kept_fails :
  ¬ stated_inputs_kept example_model world_proto_input.
Proof.
  intros H.
  destruct (H 0%nat [("0", VRef 5%nat)])
    as (w' & jd & lp & params & Hrun & Htrace & Hp & Hlp & Hkept);
    [reflexivity|reflexivity|].
  vm_compute in Hrun. injection Hrun as <-.
  vm_compute in Htrace. injection Htrace as <-.
  cbn in Hp. injection Hp as <-.
  vm_compute in Hlp. injection Hlp as <-.
  destruct (Hkept "0" 5%nat [("__proto__", VNum 5); ("b", VNum 2)]
              "__proto__" (VNum 5))
    as (lf & filtered & Hget & Hlf & Hval);
    [by left|reflexivity|reflexivity|].
  vm_compute in Hget. injection Hget as <-.
  vm_compute in Hlf. injection Hlf as <-.
  vm_compute in Hval. discriminate.
Qed.

Lemma onExecute_submits_once_witness :
  ∃ w' jd,
    onExecute example_model world_two_inputs = (Normal (), w') ∧
    trace w' = [Busy true; InvokeWorkflow (VStr "wf1") jd] ∧
    showExecuting (this world_two_inputs) = false ∧
    showExecuting (this w') = true.
Proof.
  destruct (onExecute_submits_once example_model world_two_inputs
              1%nat 0%nat 7%nat
              [("0", VNull)] [("0", VRef 5%nat); ("1", VRef 6%nat)]
              [("new_history|check", VStr "true");
               ("new_history|name", VStr "Results")])
    as (w' & jd & Hrun & Htrace & Hbusy);
    [reflexivity|reflexivity|repeat constructor|reflexivity|reflexivity
    |compute_done|repeat constructor|reflexivity|reflexivity|].
  exists w', jd. repeat split; [done|by rewrite Htrace|done].
Defined.

(** C5 as the specification states it fails for validations [{0: []}]:
    the only entry is an empty list, and [onExecute] sends nothing. *)
Lemma stated_all_empty_submits_fails :
  ¬ stated_all_empty_submits example_model world_only_empty_list.
Proof.
  intros H.
  destruct (H 1%nat [("0", VRef 5%nat)]) as [jd Hjd];
    [reflexivity|reflexivity|repeat constructor|].
  vm_compute in Hjd. discriminate.
Qed.

(** ** Events of [onExecute], whatever the world *)

Create HintDb emits.

Lemma emits_only_bind {A B} P (m : M A) (f : A → M B) :
  emits_only P m → (∀ a, emits_only P (f a)) → emits_only P (m ≫= f).
Proof.
  intros Hm Hf w. destruct (Hm w) as (a1 & E1 & H1).
  unfold exec, mbind, M_bind in *. destruct (m w) as [[a|e] w1]; cbn in *.
  - destruct (Hf a w1) as (a2 & E2 & H2). exists (a1 ++ a2).
    unfold exec in E2. rewrite E2, E1, app_assoc. split; [done|]. by apply Forall_app.
  - by exists a1.
Qed.

Lemma emits_only_silent {A} P (m : M A) :
  (∀ w, trace (exec m w) = trace w) → emits_only P m.
Proof. intros H w. exists []. by rewrite H, app_nil_r. Qed.

Lemma emits_only_ret {A} P (a : A) : emits_only P (mret a).
Proof. by apply emits_only_silent. Qed.

Lemma emits_only_throw {A} P e : emits_only P (@throw A e).
Proof. by apply emits_only_silent. Qed.

Lemma emits_only_read {A} P (f : component → A) : emits_only P (read f).
Proof. by apply emits_only_silent. Qed.

Lemma emits_only_lift {A} P (f : list object → result A) : emits_only P (lift f).
Proof. by apply emits_only_silent. Qed.

Lemma emits_only_write P f : emits_only P (write f).
Proof. by apply emits_only_silent. Qed.

Lemma emits_only_alloc P o : emits_only P (alloc o).
Proof. by apply emits_only_silent. Qed.

Lemma emits_only_set P o k v : emits_only P (set o k v).
Proof.
  apply emits_only_silent. intros w. unfold exec, set.
  destruct o as [| | | | |l]; try done.
  by destruct (store w !! l) as [[|]|].
Qed.

Lemma emits_only_slice P v : emits_only P (slice v).
Proof.
  apply emits_only_silent. intros w. unfold exec, slice.
  destruct v as [| | | | |l]; try done.
  by destruct (store w !! l) as [[|]|].
Qed.

Lemma emits_only_log (P : event → Prop) ev : P ev → emits_only P (log ev).
Proof. intros H w. exists [ev]. split; [done|]. by constructor. Qed.

Lemma emits_only_forEach {A} P (f : A → M unit) l :
  (∀ x, emits_only P (f x)) → emits_only P (forEach f l).
Proof.
  intros Hf. induction l; cbn; [apply emits_only_ret|].
  by apply emits_only_bind.
Qed.

#[local] Hint Resolve emits_only_ret emits_only_throw emits_only_read
  emits_only_lift emits_only_write emits_only_alloc emits_only_set
  emits_only_slice emits_only_log emits_only_forEach : emits.

Tactic Notation "emits_bind" ident(x) :=
  apply emits_only_bind; [auto with emits|intros x].

Lemma emits_only_scan_validations P entries :
  emits_only P (scan_validations entries).
Proof.
  induction entries as [|[k v] l IH]; cbn; [auto with emits|].
  destruct (truthy v); [|done].
  emits_bind stepError. emits_bind target. emits_bind u. auto with emits.
Qed.

Lemma emits_only_filter_step P model parameters entry :
  emits_only P (filter_step model parameters entry).
Proof.
  destruct entry as [k v]. unfold filter_step.
  emits_bind stepDataFiltered. emits_bind inputs.
  apply emits_only_bind; [|auto with emits].
  apply emits_only_forEach. intros [name x]. unfold keep_unconnected.
  destruct (negb _); auto with emits.
Qed.

Lemma emits_only_history_name P : emits_only P history_name.
Proof. unfold history_name. emits_bind hd. auto with emits. Qed.

#[local] Hint Resolve emits_only_scan_validations emits_only_filter_step
  emits_only_history_name : emits.

(** In every world, each request [onExecute] sends has the fixed flags. *)
Lemma emits_only_onExecute model :
  emits_only carries_fixed_flags (onExecute model).
Proof.
  unfold onExecute.
  emits_bind sv. emits_bind entries. emits_bind returned.
  destruct returned; [auto with emits|].
  emits_bind parameters. emits_bind sd. emits_bind steps. emits_bind u.
  emits_bind n1.
  apply emits_only_bind; [destruct (truthy n1); auto with emits|].
  intros new_history_name. emits_bind n2.
  emits_bind resource_params. emits_bind replacement_params.
  emits_bind use_cached_job.
  apply emits_only_bind.
  - unfold busy. emits_bind u'. by apply emits_only_log.
  - intros _. apply emits_only_log. by cbn.
Qed.

(** C6: a submitting [onExecute] assembles one request, and that request
    has [parameters_normalized = true], [batch = true] and
    [require_exact_tool_versions = false], whatever step inputs, history
    options, resource parameters, replacement parameters and re-use flag
    were recorded: those it carries as recorded. More generally, in every
    world, also one in which [onExecute] aborts or throws, each request it
    sends has the three flags. *)
Theorem onExecute_fixed_flags model (w : world) lv ls lh pv ps hprops :
  stepValidations (this w) = VRef lv →
  store w !! lv = Some (OObj pv) →
  Forall (λ kv, truthy kv.2 = false) pv →
  stepData (this w) = VRef ls →
  store w !! ls = Some (OObj ps) →
  NoDup ps.*1 →
  Forall (λ kv, is_object (store w) kv.2 = true) ps →
  historyData (this w) = VRef lh →
  store w !! lh = Some (OObj hprops) →
  (∃ w' jd,
     onExecute model w = (Normal (), w') ∧
     trace w' = trace w ++ [Busy true; InvokeWorkflow (workflowId model) jd] ∧
     parameters_normalized jd = VBool true ∧
     batch jd = VBool true ∧
     require_exact_tool_versions jd = VBool false ∧
     resource_params jd = resourceData (this w) ∧
     replacement_params jd = wpData (this w) ∧
     use_cached_job jd = useCachedJobs (this w)) ∧
  ∀ w0 : world, ∃ added,
    trace (exec (onExecute model) w0) = trace w0 ++ added ∧
    Forall carries_fixed_flags added.
Proof.
  intros Hsv Hlv Hvalid Hsd Hls Hsteps Hinputs Hhd Hlh. split.
  - pose proof (onExecute_submits model w lv ls lh pv ps hprops
                  Hsv Hlv Hvalid Hsd Hls Hsteps Hinputs Hhd Hlh) as H.
    cbv zeta in H. destruct H as (w' & params & Hrun & _ & Htrace & _).
    exists w'. eexists. split; [done|]. split; [done|]. by repeat split.
  - apply emits_only_onExecute.
Qed.

Lemma onExecute_fixed_flags_witness :
  ∃ w' jd,
    onExecute example_model world_two_inputs = (Normal (), w') ∧
    trace w' = [Busy true; InvokeWorkflow (VStr "wf1") jd] ∧
    parameters_normalized jd = VBool true ∧
    batch jd = VBool true ∧
    require_exact_tool_versions jd = VBool false.
Proof.
  destruct (onExecute_fixed_flags example_model world_two_inputs
              1%nat 0%nat 7%nat
              [("0", VNull)] [("0", VRef 5%nat); ("1", VRef 6%nat)]
              [("new_history|check", VStr "true");
               ("new_history|name", VStr "Results")])
    as [(w' & jd & Hrun & Htrace & Hn & Hb & Hr & _) _];
    [reflexivity|reflexivity|repeat constructor|reflexivity|reflexivity
    |compute_done|repeat constructor|reflexivity|reflexivity|].
  exists w', jd. repeat split; [done|by rewrite Htrace|done..].
Defined.

(** ** The [catch] callback *)

(** A read of a property that is neither [length] nor an array index, on a
    value that is not [undefined] or [null]: the own property, if the value
    is an ordinary object that has it. *)
Lemma get_field (h : list object) v k :
  truthy v = true → String.eqb k "length" = false → array_index k = None →
  get h v k = Normal (default VUndef (field h v k)).
Proof.
  intros Hv Hlen Hidx. destruct v as [| | | | |l]; try done; cbn.
  - unfold elems_get. by rewrite Hlen, Hidx.
  - unfold heap_get. destruct (h !! l) as [[props|elems]|]; cbn; [done| |done].
    unfold elems_get. by rewrite Hlen, Hidx.
Qed.

(** The value of [e && e.response && e.response.data &&
    e.response.data.err_data], in terms of own properties. *)
Lemma error_data_run (w : world) e :
  let r := default VUndef (field (store w) e "response") in
  let d := default VUndef (field (store w) r "data") in
  let x := default VUndef (field (store w) d "err_data") in
  error_data e w =
    (Normal (if truthy e then if truthy r then if truthy d then x else d
                              else r
             else e), w).
Proof.
  intros r d x. unfold error_data, and_then.
  destruct (truthy e) eqn:He; [|done].
  assert (dot "response" e w = (Normal r, w)) as Hr.
  { unfold dot, lift. by rewrite get_field. }
  erewrite bind_run by exact Hr. cbv beta.
  destruct (truthy r) eqn:Hr'; [|done].
  assert ((dot "response" e ≫= dot "data") w = (Normal d, w)) as Hd.
  { erewrite bind_run by exact Hr. unfold dot, lift. by rewrite get_field. }
  erewrite bind_run by exact Hd. cbv beta.
  destruct (truthy d) eqn:Hd'; [|done].
  erewrite bind_run by exact Hd. unfold dot, lift. by rewrite get_field.
Qed.

Lemma field_Some_truthy (h : list object) v k x :
  field h v k = Some x → truthy v = true.
Proof. by destruct v. Qed.

Lemma error_data_present (w : world) e x :
  err_data_of (store w) e = Some x → error_data e w = (Normal x, w).
Proof.
  unfold err_data_of. intros H. rewrite error_data_run.
  destruct (field (store w) e "response") as [r|] eqn:Hr; [|done].
  cbn in H. destruct (field (store w) r "data") as [d|] eqn:Hd; [|done].
  cbn in H. cbn. rewrite Hd. cbn. rewrite H. cbn.
  by rewrite (field_Some_truthy _ _ _ _ Hr), (field_Some_truthy _ _ _ _ Hd),
    (field_Some_truthy _ _ _ _ H).
Qed.

Lemma error_data_absent (w : world) e :
  err_data_of (store w) e = None →
  ∃ x, error_data e w = (Normal x, w) ∧ truthy x = false.
Proof.
  unfold err_data_of. intros H. rewrite error_data_run. eexists. split; [done|].
  destruct (truthy e) eqn:He; [|done].
  destruct (field (store w) e "response") as [r|]; [|done]. cbn in *.
  destruct (truthy r) eqn:Hr; [|done].
  destruct (field (store w) r "data") as [d|]; [|done]. cbn in *.
  destruct (truthy d) eqn:Hd; [|done].
  by rewrite H.
Qed.

(** The [try] block either completes, having replaced the scroll target by
    a new object, or throws before it has written anything. *)
Lemma localize_error_cases (w : world) x :
  truthy x = true →
  (∃ sid detail,
     localize_error x w =
       (Normal (),
        World (set_stepScrollTo (VRef (length (store w ++ detail))) (this w))
              (store w ++ detail ++
                 [OObj [("stepId", VStr sid);
                        ("stepError",
                         match detail with
                         | [] => VUndef
                         | _ => VRef (length (store w))
                         end)]])
              (trace w)))
  ∨ (∃ ex, localize_error x w = (Throw ex, w)).
Proof.
  intros Hx. unfold localize_error.
  assert (∃ ents, Object_entries (store w) x = Normal ents) as [ents Hents].
  { destruct x as [| | | | |l]; try done; cbn; eauto.
    destruct (heap_get (store w) l); eauto. }
  erewrite bind_run by (unfold lift; rewrite Hents; reflexivity). cbv beta.
  destruct (head ents) as [[sid fields]|]; [|right; by eexists].
  destruct (Object_entries (store w) fields) as [fents|ex] eqn:Hf.
  2:{ right. exists ex. unfold mbind, M_bind, lift. by rewrite Hf. }
  erewrite bind_run by (unfold lift; rewrite Hf; reflexivity). cbv beta.
  left. destruct (head fents) as [[name message]|].
  - exists sid, [OArr [VStr name; message]].
    erewrite bind_run by reflexivity. erewrite bind_run by reflexivity.
    unfold write. cbn. by rewrite <- app_assoc.
  - exists sid, []. erewrite bind_run by reflexivity.
    erewrite bind_run by reflexivity. unfold write. cbn.
    by rewrite app_nil_r.
Qed.

(** The callback never throws: it forwards the error and leaves the scroll
    target and the heap alone, or it forwards nothing and points the scroll
    target at a new object. *)
Lemma onExecute_catch_total e (w : world) :
  ∃ w', onExecute_catch e w = (Normal (), w') ∧
        showExecuting (this w') = false ∧
        ((trace w' = trace w ++ [Busy false; Emit "submissionError" e] ∧
          stepScrollTo (this w') = stepScrollTo (this w) ∧
          store w' = store w)
         ∨ (trace w' = trace w ++ [Busy false] ∧
            ∃ lt, stepScrollTo (this w') = VRef lt ∧ store w !! lt = None)).
Proof.
  unfold onExecute_catch.
  set (w1 := World (set_showExecuting false (this w)) (store w)
                   (trace w ++ [Busy false])).
  assert (busy false w = (Normal (), w1)) as Hbusy by reflexivity.
  erewrite bind_run by exact Hbusy. cbv beta.
  pose proof (error_data_run w1 e) as Hed. cbv zeta in Hed.
  erewrite bind_run by exact Hed. cbv beta.
  match goal with |- context [truthy ?x] => destruct (truthy x) eqn:Hx end.
  - unfold try_catch.
    destruct (localize_error_cases w1 _ Hx) as [(sid & detail & ->)|[ex ->]].
    + eexists. split; [done|]. split; [done|]. right. split; [done|].
      eexists. split; [done|]. cbn. apply lookup_ge_None.
      rewrite length_app. lia.
    + eexists. split; [done|]. split; [done|]. left. cbn.
      by rewrite <- app_assoc.
  - eexists. split; [done|]. split; [done|]. left. cbn.
    by rewrite <- app_assoc.
Qed.

(** C4: when the error carries a per-step error map at
    [response.data.err_data], the [catch] callback points the scroll target
    at the step id of the first entry of the map, paired with the first
    field error of that entry, and forwards nothing; when the error carries
    no [err_data], the callback forwards the error itself and leaves the
    scroll target and the heap as they were. Either way [showExecuting] is
    cleared first. *)
Theorem onExecute_catch_localizes e (w : world) :
  (∀ lerr errs sid lf fprops fname ferr,
     err_data_of (store w) e = Some (VRef lerr) →
     store w !! lerr = Some (OObj errs) →
     head (own_entries errs) = Some (sid, VRef lf) →
     store w !! lf = Some (OObj fprops) →
     head (own_entries fprops) = Some (fname, ferr) →
     onExecute_catch e w =
       (Normal (),
        World (set_stepScrollTo (VRef (S (length (store w))))
                 (set_showExecuting false (this w)))
              (store w ++ [OArr [VStr fname; ferr];
                           OObj [("stepId", VStr sid);
                                 ("stepError", VRef (length (store w)))]])
              (trace w ++ [Busy false]))) ∧
  (err_data_of (store w) e = None →
   onExecute_catch e w =
     (Normal (),
      World (set_showExecuting false (this w)) (store w)
            (trace w ++ [Busy false; Emit "submissionError" e]))).
Proof.
  set (w1 := World (set_showExecuting false (this w)) (store w)
                   (trace w ++ [Busy false])).
  assert (busy false w = (Normal (), w1)) as Hbusy by reflexivity.
  split.
  - intros lerr errs sid lf fprops fname ferr Hed Hlerr Hfirst Hlf Hfield.
    unfold onExecute_catch.
    erewrite bind_run by exact Hbusy. cbv beta.
    erewrite bind_run by (by apply error_data_present). cbv beta.
    cbn [truthy]. unfold try_catch, localize_error.
    erewrite bind_run.
    2:{ unfold lift, Object_entries, heap_get. cbn [store w1].
        rewrite Hlerr. reflexivity. }
    cbv beta. rewrite Hfirst.
    erewrite bind_run.
    2:{ unfold lift, Object_entries, heap_get. cbn [store w1].
        rewrite Hlf. reflexivity. }
    cbv beta. rewrite Hfield.
    erewrite bind_run by reflexivity. erewrite bind_run by reflexivity.
    unfold write. cbn. rewrite length_app, Nat.add_1_r, <- app_assoc. done.
  - intros Hed. unfold onExecute_catch.
    erewrite bind_run by exact Hbusy. cbv beta.
    destruct (error_data_absent w1 e Hed) as (x & Hx & Hfalsy).
    erewrite bind_run by exact Hx. cbv beta. rewrite Hfalsy.
    unfold log. cbn. by rewrite <- app_assoc.
Qed.

Lemma onExecute_catch_localizes_witness :
  (∃ w', onExecute_catch (last_allocated world_field_error) world_field_error
           = (Normal (), w') ∧
         trace w' = [Busy false] ∧
         get (store w') (stepScrollTo (this w')) "stepId" = Normal (VStr "2") ∧
         ∃ lc, get (store w') (stepScrollTo (this w')) "stepError"
                 = Normal (VRef lc) ∧
               store w' !! lc = Some (OArr [VStr "field_x"; VStr "bad value"])) ∧
  (∃ w', onExecute_catch (last_allocated world_opaque_error) world_opaque_error
           = (Normal (), w') ∧
         trace w' = [Busy false;
                     Emit "submissionError" (last_allocated world_opaque_error)] ∧
         stepScrollTo (this w') = stepScrollTo (this world_opaque_error)).
Proof.
  split.
  - destruct (onExecute_catch_localizes (last_allocated world_field_error)
                world_field_error) as [Hloc _].
    eexists. split.
    + apply (Hloc 6%nat [("2", VRef 5%nat)] "2" 5%nat
               [("field_x", VStr "bad value")] "field_x" (VStr "bad value"));
        reflexivity.
    + split; [reflexivity|]. split; [reflexivity|].
      exists 10%nat. split; reflexivity.
  - destruct (onExecute_catch_localizes (last_allocated world_opaque_error)
                world_opaque_error) as [_ Hfwd].
    eexists. split; [apply Hfwd; reflexivity|]. split; reflexivity.
Defined.

(** With [err_data = {}] the [try] block throws, the exception is caught,
    and the error is forwarded. *)
Lemma onExecute_catch_no_step_error :
  onExecute_catch (last_allocated world_no_step_error) world_no_step_error =
    (Normal (),
     World (this world_no_step_error) (store world_no_step_error)
           [Busy false;
            Emit "submissionError" (last_allocated world_no_step_error)]).
Proof. reflexivity. Qed.

(** C8, at [err_data = {"2": {}}]: the first entry has a step id and no
    field error; the [try] block does not throw, the scroll target is
    replaced by [{stepId: "2", stepError: undefined}], and the error is not
    forwarded. *)
Theorem onExecute_catch_no_field_error :
  let w := world_no_field_error in
  let e := last_allocated world_no_field_error in
  err_data_of (store w) e = Some (VRef 6%nat) ∧
  store w !! 6%nat = Some (OObj [("2", VRef 5%nat)]) ∧
  store w !! 5%nat = Some (OObj []) ∧
  ∃ w',
    onExecute_catch e w = (Normal (), w') ∧
    trace w' = [Busy false] ∧
    stepScrollTo (this w') ≠ stepScrollTo (this w) ∧
    get (store w') (stepScrollTo (this w')) "stepId" = Normal (VStr "2") ∧
    get (store w') (stepScrollTo (this w')) "stepError" = Normal VUndef.
Proof.
  repeat split. eexists. split; [vm_compute; reflexivity|].
  repeat split. discriminate.
Qed.

(** ** The scroll target, as the template reads it *)

(** C10: [getValidationScrollTo(stepId)] returns the stored [stepError]
    when the scroll target names the step [stepId], and a new empty array
    for every other step index, also when no scroll target was recorded. *)
Theorem getValidationScrollTo_spec (w : world) lt tprops (stepId : Z) :
  stepScrollTo (this w) = VRef lt →
  store w !! lt = Some (OObj tprops) →
  let empty_list :=
    Some (Normal (VRef (length (store w))),
          World (this w) (store w ++ [OArr []]) (trace w)) in
  (prop_get "stepId" tprops = None →
   getValidationScrollTo stepId w = empty_list) ∧
  (∀ m, (m < 4294967295)%N →
        prop_get "stepId" tprops = Some (VStr (index_key m)) →
        (stepId = Z.of_N m →
         getValidationScrollTo stepId w =
           Some (Normal (default VUndef (prop_get "stepError" tprops)), w)) ∧
        (stepId ≠ Z.of_N m →
         getValidationScrollTo stepId w = empty_list)).
Proof.
  intros Hst Hlt empty_list.
  assert (∀ k, (t ← read stepScrollTo; lift (λ h, get h t k)) w
               = (Normal (default VUndef (prop_get k tprops)), w)) as Hget.
  { intros k. erewrite bind_run by reflexivity.
    unfold lift, get, heap_get. by rewrite Hst, Hlt. }
  unfold getValidationScrollTo. rewrite (Hget "stepId"). split.
  - by intros ->.
  - intros m Hm ->. unfold default, id, loose_eq_number.
    rewrite string_to_number_index_key by done. cbn [fmap option_fmap option_map]. split.
    + intros ->. rewrite Z.eqb_refl. by rewrite Hget.
    + intros Hne. by destruct (Z.eqb_spec (Z.of_N m) stepId).
Qed.

Lemma getValidationScrollTo_spec_witness :
  getValidationScrollTo 3 world_three_steps_blocked
    = Some (Normal (VRef 7%nat), world_three_steps_blocked) ∧
  store world_three_steps_blocked !! 7%nat
    = Some (OArr [VStr "x"; VStr "y"]) ∧
  getValidationScrollTo 10 world_three_steps_blocked =
    Some (Normal (VRef 9%nat),
          World (this world_three_steps_blocked)
                (store world_three_steps_blocked ++ [OArr []])
                (trace world_three_steps_blocked)) ∧
  getValidationScrollTo 3 data =
    Some (Normal (VRef 5%nat),
          World (this data) (store data ++ [OArr []]) (trace data)).
Proof.
  destruct (getValidationScrollTo_spec world_three_steps_blocked 8%nat
              [("stepId", VStr "3"); ("stepError", VRef 7%nat)] 3)
    as [_ Hthree]; [reflexivity|reflexivity|].
  destruct (getValidationScrollTo_spec world_three_steps_blocked 8%nat
              [("stepId", VStr "3"); ("stepError", VRef 7%nat)] 10)
    as [_ Hten]; [reflexivity|reflexivity|].
  destruct (getValidationScrollTo_spec data 2%nat [] 3)
    as [Hnone _]; [reflexivity|reflexivity|].
  split; [|split; [|split]].
  - by apply (Hthree 3%N).
  - reflexivity.
  - by apply (Hten 3%N).
  - by apply Hnone.
Defined.

(** * Further facts about the component *)

(** ** Relations kept by every run *)

Section StepsIn.
Context (R : relation world) `{!PreOrder R}.

Lemma steps_in_bind {A B} (m : M A) (f : A → M B) :
  steps_in R m → (∀ a, steps_in R (f a)) → steps_in R (m ≫= f).
Proof.
  intros Hm Hf w. specialize (Hm w).
  unfold steps_in, exec, mbind, M_bind in *.
  destruct (m w) as [[a|e] w1]; cbn in *; [|done].
  by etrans; [exact Hm|apply Hf].
Qed.

Lemma steps_in_ret {A} (a : A) : steps_in R (mret a).
Proof. by intros w. Qed.

Lemma steps_in_throw {A} e : steps_in R (@throw A e).
Proof. by intros w. Qed.

Lemma steps_in_read {A} (f : component → A) : steps_in R (read f).
Proof. by intros w. Qed.

Lemma steps_in_lift {A} (f : list object → result A) : steps_in R (lift f).
Proof. by intros w. Qed.

Lemma steps_in_forEach {A} (f : A → M unit) l :
  (∀ x, steps_in R (f x)) → steps_in R (forEach f l).
Proof.
  intros Hf. induction l; cbn; [apply steps_in_ret|].
  by apply steps_in_bind.
Qed.

Lemma steps_in_mapM {A B} (f : A → M B) l :
  (∀ x, steps_in R (f x)) → steps_in R (mapM f l).
Proof.
  intros Hf. induction l; cbn; [apply steps_in_ret|].
  apply steps_in_bind; [done|intros y].
  apply steps_in_bind; [done|intros ys]. apply steps_in_ret.
Qed.

Lemma steps_in_try_catch body handler :
  steps_in R body → (∀ e, steps_in R (handler e)) →
  steps_in R (try_catch body handler).
Proof.
  intros Hb Hh w. specialize (Hb w).
  unfold steps_in, exec, try_catch in *.
  destruct (body w) as [[a|e] w1]; cbn in *; [done|].
  by etrans; [exact Hb|apply Hh].
Qed.

End StepsIn.

Create HintDb steps.

Ltac steps_auto :=
  first [ apply steps_in_ret; typeclasses eauto
        | apply steps_in_throw; typeclasses eauto
        | apply steps_in_read; typeclasses eauto
        | apply steps_in_lift; typeclasses eauto
        | apply steps_in_forEach; [typeclasses eauto|intros ?; steps_auto]
        | solve [auto with steps] ].

Tactic Notation "steps_bind" ident(x) :=
  apply steps_in_bind; [typeclasses eauto|steps_auto|intros x].

(** *** No event and no change of [showExecuting] *)

#[local] Instance same_log_preorder : PreOrder same_log.
Proof.
  split; [by intros w|].
  intros w1 w2 w3 [? ?] [? ?]. split; congruence.
Qed.

Lemma same_log_alloc o : steps_in same_log (alloc o).
Proof. by intros w. Qed.

Lemma same_log_set o k v : steps_in same_log (set o k v).
Proof.
  intros w. unfold exec, set. destruct o as [| | | | |l]; try done.
  by destruct (store w !! l) as [[|]|].
Qed.

Lemma same_log_slice v : steps_in same_log (slice v).
Proof.
  intros w. unfold exec, slice. destruct v as [| | | | |l]; try done.
  by destruct (store w !! l) as [[|]|].
Qed.

Lemma same_log_write_stepScrollTo v :
  steps_in same_log (write (set_stepScrollTo v)).
Proof. by intros w. Qed.

Lemma same_log_write_stepData v : steps_in same_log (write (set_stepData v)).
Proof. by intros w. Qed.

#[local] Hint Resolve same_log_alloc same_log_set same_log_slice
  same_log_write_stepScrollTo same_log_write_stepData : steps.

Lemma same_log_scan_validations entries :
  steps_in same_log (scan_validations entries).
Proof.
  induction entries as [|[k v] l IH]; cbn; [steps_auto|].
  destruct (truthy v); [|done].
  steps_bind stepError. steps_bind target. steps_bind u. steps_auto.
Qed.

Lemma same_log_filter_step model parameters entry :
  steps_in same_log (filter_step model parameters entry).
Proof.
  destruct entry as [k v]. unfold filter_step.
  steps_bind stepDataFiltered. steps_bind inputs.
  apply steps_in_bind; [typeclasses eauto| |steps_auto].
  apply steps_in_forEach; [typeclasses eauto|].
  intros [name x]. unfold keep_unconnected.
  destruct (negb _); steps_auto.
Qed.

Lemma same_log_history_name : steps_in same_log history_name.
Proof. unfold history_name. steps_bind hd. steps_auto. Qed.

#[local] Hint Resolve same_log_scan_validations same_log_filter_step
  same_log_history_name : steps.

Lemma sends_at_most_once_bind model {A B} (m : M A) (f : A → M B) :
  steps_in same_log m → (∀ a, sends_at_most_once model (f a)) →
  sends_at_most_once model (m ≫= f).
Proof.
  intros Hm Hf w. specialize (Hm w).
  unfold sends_at_most_once, steps_in, exec, mbind, M_bind in *.
  destruct (m w) as [[a|e] w1]; cbn in *; [|by left].
  destruct Hm as [Ht Hb].
  destruct (Hf a w1) as [[Ht' Hb']|(b & jd & Hrun & Ht' & Hb')].
  - left. split; congruence.
  - right. exists b, jd. rewrite <- Ht. done.
Qed.

Lemma sends_at_most_once_quiet model {A} (m : M A) :
  steps_in same_log m → sends_at_most_once model m.
Proof. intros Hm w. left. apply Hm. Qed.

Lemma onExecute_sends_at_most_once model :
  sends_at_most_once model (onExecute model).
Proof.
  unfold onExecute.
  apply sends_at_most_once_bind; [steps_auto|intros sv].
  apply sends_at_most_once_bind; [steps_auto|intros entries].
  apply sends_at_most_once_bind; [steps_auto|intros returned].
  destruct returned; [apply sends_at_most_once_quiet; steps_auto|].
  apply sends_at_most_once_bind; [steps_auto|intros parameters].
  apply sends_at_most_once_bind; [steps_auto|intros sd].
  apply sends_at_most_once_bind; [steps_auto|intros steps].
  apply sends_at_most_once_bind; [steps_auto|intros u].
  apply sends_at_most_once_bind; [steps_auto|intros n1].
  apply sends_at_most_once_bind;
    [destruct (truthy n1); steps_auto|intros name].
  apply sends_at_most_once_bind; [steps_auto|intros n2].
  apply sends_at_most_once_bind; [steps_auto|intros resource_params].
  apply sends_at_most_once_bind; [steps_auto|intros replacement_params].
  apply sends_at_most_once_bind; [steps_auto|intros use_cached_job].
  intros w0. right. eexists (), _.
  split; [reflexivity|]. split; [|reflexivity].
  unfold exec, busy, mbind, M_bind, write, log. cbn.
  rewrite <- app_assoc. reflexivity.
Qed.

(** X1: in every world, [onExecute] adds no event and leaves
    [showExecuting] as it was, or it completes having set [showExecuting]
    to [true] and then called [invokeWorkflow] once, with the model's
    workflow id. *)
Theorem onExecute_at_most_one_request model (w : world) :
  same_log w (exec (onExecute model) w) ∨
  ∃ jd,
    onExecute model w = (Normal (), exec (onExecute model) w) ∧
    trace (exec (onExecute model) w)
      = trace w ++ [Busy true; InvokeWorkflow (workflowId model) jd] ∧
    showExecuting (this (exec (onExecute model) w)) = true.
Proof.
  destruct (onExecute_sends_at_most_once model w)
    as [?|(a & jd & Hrun & ? & ?)]; [by left|].
  right. exists jd. by destruct a.
Qed.

(** *** No change to the objects that exist and to the recorded fields *)

#[local] Instance frame_from_preorder n : PreOrder (frame_from n).
Proof.
  split; [by intros w|].
  intros w1 w2 w3 H12 H23 Hn.
  destruct (H12 Hn) as (? & ? & ?). destruct (H23 ltac:(done)) as (? & ? & ?).
  repeat split; [congruence|done|congruence].
Qed.

Lemma frame_alloc n o : steps_in (frame_from n) (alloc o).
Proof.
  intros w Hn. cbn. rewrite take_app_le, length_app by done.
  repeat split. lia.
Qed.

(** What [alloc] returns is out of the frame. *)
Lemma frame_alloc_bind n o {B} (f : value → M B) :
  (∀ l, (n ≤ l)%nat → steps_in (frame_from n) (f (VRef l))) →
  steps_in (frame_from n) (alloc o ≫= f).
Proof.
  intros Hf w Hn.
  pose proof (frame_alloc n o w Hn) as (Ht & Hl & Hr).
  destruct (Hf (length (store w)) Hn (exec (alloc o) w) Hl) as (Ht' & Hl' & Hr').
  unfold exec, mbind, M_bind in *. cbn in *.
  repeat split; [congruence|done|congruence].
Qed.

Lemma frame_set n l k v :
  (n ≤ l)%nat → steps_in (frame_from n) (set (VRef l) k v).
Proof.
  intros Hl w Hn. unfold exec, set.
  destruct (store w !! l) as [[ps|]|]; try done. cbn.
  by rewrite take_insert_ge, length_insert.
Qed.

Lemma frame_slice n v : steps_in (frame_from n) (slice v).
Proof.
  intros w. unfold exec, slice. destruct v as [| | | | |l]; try done.
  destruct (store w !! l) as [[|elems]|]; try done.
  apply frame_alloc.
Qed.

Lemma frame_write_stepScrollTo n v :
  steps_in (frame_from n) (write (set_stepScrollTo v)).
Proof. by intros w. Qed.

Lemma frame_busy n b : steps_in (frame_from n) (busy b).
Proof. by intros w. Qed.

Lemma frame_log n ev : steps_in (frame_from n) (log ev).
Proof. by intros w. Qed.

#[local] Hint Resolve frame_alloc frame_set frame_slice
  frame_write_stepScrollTo frame_busy frame_log : steps.

Lemma frame_scan_validations n entries :
  steps_in (frame_from n) (scan_validations entries).
Proof.
  induction entries as [|[k v] l IH]; cbn; [steps_auto|].
  destruct (truthy v); [|done].
  steps_bind stepError. steps_bind target. steps_bind u. steps_auto.
Qed.

Lemma frame_filter_step n model lp entry :
  (n ≤ lp)%nat → steps_in (frame_from n) (filter_step model (VRef lp) entry).
Proof.
  intros Hlp. destruct entry as [k v]. unfold filter_step.
  apply frame_alloc_bind. intros lf Hlf.
  steps_bind inputs.
  apply steps_in_bind; [typeclasses eauto| |intros u; steps_auto].
  apply steps_in_forEach; [typeclasses eauto|].
  intros [name x]. unfold keep_unconnected.
  destruct (negb _); steps_auto.
Qed.

Lemma frame_history_name n : steps_in (frame_from n) history_name.
Proof. unfold history_name. steps_bind hd. steps_auto. Qed.

#[local] Hint Resolve frame_scan_validations frame_history_name : steps.

Lemma frame_onExecute n model : steps_in (frame_from n) (onExecute model).
Proof.
  unfold onExecute.
  steps_bind sv. steps_bind entries. steps_bind returned.
  destruct returned; [steps_auto|].
  apply frame_alloc_bind. intros lp Hlp.
  steps_bind sd. steps_bind steps.
  apply steps_in_bind; [typeclasses eauto| |intros u].
  { apply steps_in_forEach; [typeclasses eauto|].
    intros entry. by apply frame_filter_step. }
  steps_bind n1.
  apply steps_in_bind;
    [typeclasses eauto|destruct (truthy n1); steps_auto|intros name].
  steps_bind n2. steps_bind resource_params. steps_bind replacement_params.
  steps_bind use_cached_job. steps_bind u'. steps_auto.
Qed.

Lemma frame_onExecute_then n invocations :
  steps_in (frame_from n) (onExecute_then invocations).
Proof. unfold onExecute_then. steps_bind u. steps_auto. Qed.

Lemma frame_error_data n e : steps_in (frame_from n) (error_data e).
Proof.
  unfold error_data, and_then, dot.
  destruct (truthy e); [|steps_auto]. steps_bind r.
  destruct (truthy r); [|steps_auto].
  apply steps_in_bind; [typeclasses eauto| |intros d].
  { steps_bind r'. steps_auto. }
  destruct (truthy d); [|steps_auto].
  apply steps_in_bind; [typeclasses eauto| |intros d'; steps_auto].
  steps_bind r'. steps_auto.
Qed.

Lemma frame_localize_error n errorData :
  steps_in (frame_from n) (localize_error errorData).
Proof.
  unfold localize_error. steps_bind errorEntries.
  destruct (head errorEntries) as [[stepId fields]|]; [|steps_auto].
  steps_bind fieldEntries.
  apply steps_in_bind; [typeclasses eauto| |intros stepError].
  { destruct (head fieldEntries) as [[name message]|]; steps_auto. }
  steps_bind target. steps_auto.
Qed.

Lemma frame_onExecute_catch n e : steps_in (frame_from n) (onExecute_catch e).
Proof.
  unfold onExecute_catch. steps_bind u.
  apply steps_in_bind; [typeclasses eauto|apply frame_error_data|].
  intros errorData. destruct (truthy errorData); [|steps_auto].
  apply steps_in_try_catch; [typeclasses eauto|apply frame_localize_error|].
  intros ex. steps_auto.
Qed.

Lemma frame_from_prefix (w w' : world) :
  frame_from (length (store w)) w w' →
  store w `prefix_of` store w' ∧ recorded (this w') = recorded (this w).
Proof.
  intros H. destruct (H ltac:(done)) as (Ht & _ & Hr). split; [|done].
  rewrite firstn_all in Ht. rewrite <- Ht. apply prefix_take.
Qed.

(** X2: in every world, whether it submits, aborts or throws,
    [onExecute] leaves every object and array that exists as it was (the
    recorded step inputs, the validation lists and the history options
    among them; it writes only to objects it has made), and leaves
    [stepData], [stepValidations], [wpData], [historyData],
    [useCachedJobs] and [resourceData] of the component as they were. *)
Theorem onExecute_keeps_recorded_state model (w : world) :
  store w `prefix_of` store (exec (onExecute model) w) ∧
  recorded (this (exec (onExecute model) w)) = recorded (this w).
Proof. apply frame_from_prefix, frame_onExecute. Qed.

(** X3: the two promise callbacks of [onExecute] leave every object that
    exists and the recorded fields of the component as they were, whatever
    the invocations or the error they receive. *)
Theorem onExecute_callbacks_keep_recorded_state x (w : world) :
  (store w `prefix_of` store (exec (onExecute_then x) w) ∧
   recorded (this (exec (onExecute_then x) w)) = recorded (this w)) ∧
  (store w `prefix_of` store (exec (onExecute_catch x) w) ∧
   recorded (this (exec (onExecute_catch x) w)) = recorded (this w)).
Proof.
  split; apply frame_from_prefix;
    [apply frame_onExecute_then|apply frame_onExecute_catch].
Qed.

(** *** Unique property names *)

Lemma prop_set_keys k v ps :
  (prop_set k v ps).*1 = if decide (k ∈ ps.*1) then ps.*1 else ps.*1 ++ [k].
Proof.
  induction ps as [|[k' v'] ps IH]; cbn.
  - by rewrite decide_False by apply not_elem_of_nil.
  - destruct (String.eqb_spec k' k) as [->|Hne]; cbn.
    + by rewrite decide_True by left.
    + rewrite IH. destruct (decide (k ∈ ps.*1)) as [Hin|Hin].
      * by rewrite decide_True by (by right).
      * rewrite decide_False; [done|].
        intros [?|?]%elem_of_cons; congruence.
Qed.

Lemma prop_set_NoDup k v ps : NoDup ps.*1 → NoDup (prop_set k v ps).*1.
Proof.
  intros Hnd. rewrite prop_set_keys. case_decide; [done|].
  apply NoDup_app. repeat split; [done| |apply NoDup_singleton].
  intros x Hx ->%list_elem_of_singleton. done.
Qed.

Lemma own_write_NoDup k v ps : NoDup ps.*1 → NoDup (own_write k v ps).*1.
Proof.
  intros Hnd. unfold own_write.
  destruct (String.eqb k "__proto__"); [destruct (prop_get k ps)|];
    (done || by apply prop_set_NoDup).
Qed.

Lemma foldl_prop_set_NoDup (entries acc : list (string * value)) :
  NoDup acc.*1 →
  NoDup (foldl (λ ps kv, prop_set kv.1 kv.2 ps) acc entries).*1.
Proof.
  revert acc. induction entries as [|kv l IH]; intros acc Hacc; [done|].
  cbn. by apply IH, prop_set_NoDup.
Qed.

#[local] Instance keeps_unique_preorder : PreOrder keeps_unique.
Proof.
  split; [by intros w H|]. intros w1 w2 w3 H12 H23 H. by apply H23, H12.
Qed.

Lemma unique_alloc o : unique_object o → steps_in keeps_unique (alloc o).
Proof.
  intros Ho w Hw l ps. cbn. intros [Hl|[_ Hl]]%lookup_app_Some.
  - by eapply Hw.
  - destruct (l - length (store w))%nat as [|i]; [|done].
    cbn in Hl. injection Hl as ->. done.
Qed.

Lemma unique_set o k v : steps_in keeps_unique (set o k v).
Proof.
  intros w Hw. unfold exec, set. destruct o as [| | | | |l]; try done.
  destruct (store w !! l) as [[ps|]|] eqn:Hl; try done. cbn.
  intros l' ps'. destruct (decide (l = l')) as [<-|Hne].
  - rewrite list_lookup_insert_eq by (by eapply lookup_lt_Some).
    intros [= <-]. apply own_write_NoDup. by eapply Hw.
  - rewrite list_lookup_insert_ne by done. apply Hw.
Qed.

Lemma unique_slice v : steps_in keeps_unique (slice v).
Proof.
  intros w. unfold exec, slice. destruct v as [| | | | |l]; try done.
  destruct (store w !! l) as [[|elems]|]; try done.
  by apply unique_alloc.
Qed.

Lemma unique_write f : steps_in keeps_unique (write f).
Proof. by intros w H. Qed.

Lemma unique_log ev : steps_in keeps_unique (log ev).
Proof. by intros w H. Qed.

Lemma unique_alloc_array elems : steps_in keeps_unique (alloc (OArr elems)).
Proof. by apply unique_alloc. Qed.

Lemma unique_alloc_empty : steps_in keeps_unique (alloc (OObj [])).
Proof. apply unique_alloc. constructor. Qed.

Lemma unique_alloc_target sid detail :
  steps_in keeps_unique
    (alloc (OObj [("stepId", sid); ("stepError", detail)])).
Proof. apply unique_alloc. cbn. compute_done. Qed.

#[local] Hint Resolve unique_set unique_slice unique_write unique_log
  unique_alloc_array unique_alloc_empty unique_alloc_target : steps.

Lemma unique_call model m : steps_in keeps_unique (call model m).
Proof.
  destruct m; cbn.
  - unfold onDefaultStepInputs. steps_bind sd. steps_bind u. steps_bind sd'.
    steps_bind ents.
    apply steps_in_bind; [typeclasses eauto| |intros copy; steps_auto].
    apply unique_alloc. apply foldl_prop_set_NoDup. constructor.
  - unfold onToolStepInputs. steps_bind sd. steps_auto.
  - apply unique_write.
  - apply unique_write.
  - apply unique_write.
  - unfold onValidation. steps_bind sv. steps_auto.
  - unfold onExecute.
    steps_bind sv. steps_bind entries.
    apply steps_in_bind; [typeclasses eauto| |intros returned].
    { induction entries as [|[k v] l IH]; cbn; [steps_auto|].
      destruct (truthy v); [|done].
      steps_bind stepError. steps_bind target. steps_bind u. steps_auto. }
    destruct returned; [steps_auto|].
    steps_bind parameters. steps_bind sd. steps_bind steps.
    apply steps_in_bind; [typeclasses eauto| |intros u].
    { apply steps_in_forEach; [typeclasses eauto|]. intros [k v].
      unfold filter_step. steps_bind stepDataFiltered. steps_bind inputs.
      apply steps_in_bind; [typeclasses eauto| |intros u; steps_auto].
      apply steps_in_forEach; [typeclasses eauto|].
      intros [name x]. unfold keep_unconnected. destruct (negb _); steps_auto. }
    unfold history_name.
    apply steps_in_bind; [typeclasses eauto| |intros n1].
    { steps_bind hd. steps_auto. }
    apply steps_in_bind; [typeclasses eauto| |intros name].
    { destruct (truthy n1); [|steps_auto]. steps_bind hd. steps_auto. }
    apply steps_in_bind; [typeclasses eauto| |intros n2].
    { steps_bind hd. steps_auto. }
    steps_bind resource_params. steps_bind replacement_params.
    steps_bind use_cached_job.
    apply steps_in_bind; [typeclasses eauto| |intros u'; steps_auto].
    unfold busy. steps_bind u'. steps_auto.
  - unfold onExecute_then, busy.
    apply steps_in_bind; [typeclasses eauto| |intros u; steps_auto].
    steps_bind u'. steps_auto.
  - unfold onExecute_catch, busy.
    apply steps_in_bind; [typeclasses eauto| |intros u].
    { steps_bind u'. steps_auto. }
    apply steps_in_bind; [typeclasses eauto| |intros errorData].
    { unfold error_data, and_then, dot.
      destruct (truthy e); [|steps_auto]. steps_bind r.
      destruct (truthy r); [|steps_auto].
      apply steps_in_bind; [typeclasses eauto| |intros d].
      { steps_bind r'. steps_auto. }
      destruct (truthy d); [|steps_auto].
      apply steps_in_bind; [typeclasses eauto| |intros d'; steps_auto].
      steps_bind r'. steps_auto. }
    destruct (truthy errorData); [|steps_auto].
    apply steps_in_try_catch; [typeclasses eauto| |intros ex; steps_auto].
    unfold localize_error. steps_bind errorEntries.
    destruct (head errorEntries) as [[stepId fields]|]; [|steps_auto].
    steps_bind fieldEntries.
    apply steps_in_bind; [typeclasses eauto| |intros stepError].
    { destruct (head fieldEntries) as [[name message]|]; steps_auto. }
    steps_bind target. steps_auto.
  - apply steps_in_bind; [typeclasses eauto| |intros u; steps_auto].
    unfold toArray. destruct (truthy obj); [|steps_auto].
    steps_bind keys.
    apply steps_in_bind; [typeclasses eauto| |intros vals; steps_auto].
    apply steps_in_mapM; [typeclasses eauto|]. intros k. steps_auto.
Qed.

(** X4: no object of the heap ever has two properties of one name: this
    holds of the heap [data()] makes, every method of the component and
    both promise callbacks keep it in every world, and so does
    [getValidationScrollTo]. *)
Theorem unique_keys_invariant model :
  unique_keys (store data) ∧
  (∀ m (w : world),
     unique_keys (store w) → unique_keys (store (exec (call model m) w))) ∧
  (∀ stepId (w : world) r w',
     unique_keys (store w) →
     getValidationScrollTo stepId w = Some (r, w') →
     unique_keys (store w')).
Proof.
  split; [|split].
  - intros l ps Hl. cbn in Hl.
    do 5 (destruct l as [|l]; [injection Hl as <-; constructor|]). done.
  - intros m w. apply unique_call.
  - intros stepId w r w' Hw.
    unfold getValidationScrollTo, mbind, M_bind, read, lift. cbn.
    destruct (get (store w) (stepScrollTo (this w)) "stepId") as [sid|e].
    + destruct (loose_eq_number sid stepId) as [[|]|]; [| |done].
      * by intros [= _ <-].
      * intros [= _ <-]. by apply (unique_alloc_array [] w).
    + by intros [= _ <-].
Qed.

Lemma unique_keys_invariant_witness :
  unique_keys
    (store (exec (call example_model Execute)
              (exec (call example_model (Validation 1 (VStr "required")))
                 data))).
Proof.
  destruct (unique_keys_invariant example_model) as (Hdata & Hcall & _).
  apply Hcall, Hcall, Hdata.
Defined.

(** ** [toArray] and the computed properties *)

Lemma get_truthy (h : list object) v k :
  truthy v = true → ∃ x, get h v k = Normal x.
Proof.
  destruct v as [| | | | |l]; try done; cbn; eauto.
  destruct (heap_get h l); eauto.
Qed.

Lemma mapM_get_total (w : world) obj keys :
  truthy obj = true →
  ∃ vals, mapM (λ k, lift (λ h, get h obj k)) keys w = (Normal vals, w).
Proof.
  intros Hobj. induction keys as [|k keys [vals IH]]; [by exists []|].
  destruct (get_truthy (store w) obj k Hobj) as [x Hx].
  exists (x :: vals). cbn [mapM].
  erewrite bind_run by (unfold lift; rewrite Hx; reflexivity).
  by erewrite bind_run by exact IH.
Qed.

Lemma mapM_get_object (w : world) l ps entries :
  store w !! l = Some (OObj ps) →
  Forall (λ kv, prop_get kv.1 ps = Some kv.2) entries →
  mapM (λ k, lift (λ h, get h (VRef l) k)) entries.*1 w
    = (Normal entries.*2, w).
Proof.
  intros Hl. induction 1 as [|[k v] entries Hkv _ IH]; [done|].
  cbn [fmap list_fmap mapM fst snd].
  erewrite bind_run.
  2:{ unfold lift, get, heap_get. rewrite Hl. cbn in *. rewrite Hkv.
      reflexivity. }
  by erewrite bind_run by exact IH.
Qed.

Lemma own_entries_prop_get ps :
  NoDup ps.*1 → Forall (λ kv, prop_get kv.1 ps = Some kv.2) (own_entries ps).
Proof.
  intros Hnd. apply Forall_forall. intros [k v] Hin.
  apply prop_get_elem; [done|]. by rewrite <- (own_entries_Permutation ps).
Qed.

Lemma toArray_falsy (w : world) obj :
  truthy obj = false →
  toArray obj w =
    (Normal (VRef (length (store w))),
     World (this w) (store w ++ [OArr []]) (trace w)).
Proof. intros Hobj. unfold toArray. by rewrite Hobj. Qed.

Lemma toArray_object (w : world) l ps :
  store w !! l = Some (OObj ps) → NoDup ps.*1 →
  toArray (VRef l) w =
    (Normal (VRef (length (store w))),
     World (this w) (store w ++ [OArr (own_entries ps).*2]) (trace w)).
Proof.
  intros Hl Hnd. unfold toArray. cbn [truthy].
  erewrite bind_run.
  2:{ unfold lift, Object_keys, Object_entries, heap_get. rewrite Hl.
      reflexivity. }
  erewrite bind_run; [reflexivity|].
  apply (mapM_get_object w l ps); [done|by apply own_entries_prop_get].
Qed.

(** X5: [toArray] never throws and always returns a new array: an empty
    one for a falsy argument, and for an object the values of its
    properties, array-index names first in ascending order, then the other
    names in insertion order; it changes nothing else. *)
Theorem toArray_values obj (w : world) :
  (∃ vals,
     toArray obj w =
       (Normal (VRef (length (store w))),
        World (this w) (store w ++ [OArr vals]) (trace w))) ∧
  (truthy obj = false →
   toArray obj w =
     (Normal (VRef (length (store w))),
      World (this w) (store w ++ [OArr []]) (trace w))) ∧
  (∀ l ps, obj = VRef l → store w !! l = Some (OObj ps) → NoDup ps.*1 →
     toArray obj w =
       (Normal (VRef (length (store w))),
        World (this w) (store w ++ [OArr (own_entries ps).*2]) (trace w))).
Proof.
  split; [|split].
  - unfold toArray. destruct (truthy obj) eqn:Hobj; [|by exists []].
    assert (∃ keys, Object_keys (store w) obj = Normal keys) as [keys Hkeys].
    { unfold Object_keys. destruct obj as [| | | | |l]; try done; cbn; eauto.
      destruct (heap_get (store w) l); eauto. }
    destruct (mapM_get_total w obj keys Hobj) as [vals Hvals].
    exists vals.
    erewrite bind_run by (unfold lift; rewrite Hkeys; reflexivity).
    by erewrite bind_run by exact Hvals.
  - apply toArray_falsy.
  - intros l ps -> Hl Hnd. by apply toArray_object.
Qed.

Lemma toArray_values_witness :
  toArray (VRef 5%nat) world_wp_inputs =
    (Normal (VRef 6%nat),
     World (this world_wp_inputs)
           (store world_wp_inputs ++ [OArr [VStr "one"; VStr "B"; VStr "A"]])
           (trace world_wp_inputs)).
Proof.
  destruct (toArray_values (VRef 5%nat) world_wp_inputs) as (_ & _ & H).
  apply (H 5%nat [("b", VStr "B"); ("1", VStr "one"); ("a", VStr "A")]);
    [reflexivity|reflexivity|compute_done].
Defined.

Lemma length_positive_toArray obj (w : world) vals :
  toArray obj w =
    (Normal (VRef (length (store w))),
     World (this w) (store w ++ [OArr vals]) (trace w)) →
  length_positive (toArray obj) w =
    Some (Normal (bool_decide (vals ≠ [])),
          World (this w) (store w ++ [OArr vals]) (trace w)).
Proof.
  intros H. unfold length_positive.
  erewrite bind_run by exact H.
  unfold lift, get, heap_get. cbn [store].
  rewrite lookup_app_r, Nat.sub_diag by done. cbn.
  by destruct vals.
Qed.

Lemma length_positive_object (w : world) l ps :
  store w !! l = Some (OObj ps) → NoDup ps.*1 →
  ∃ w', length_positive (toArray (VRef l)) w
        = Some (Normal (bool_decide (ps ≠ [])), w').
Proof.
  intros Hl Hnd. eexists.
  rewrite (length_positive_toArray _ _ _ (toArray_object w l ps Hl Hnd)).
  do 3 f_equal. apply bool_decide_ext.
  rewrite <- !length_zero_iff_nil, length_fmap.
  by rewrite (Permutation_length (own_entries_Permutation ps)).
Qed.

Lemma length_positive_falsy (w : world) obj :
  truthy obj = false →
  ∃ w', length_positive (toArray obj) w = Some (Normal false, w').
Proof.
  intros Hf. eexists.
  by rewrite (length_positive_toArray _ _ _ (toArray_falsy w obj Hf)).
Qed.

(** X6: [wpInputsAvailable] and [resourceInputsAvailable] never throw;
    each is [false] when the model has no such parameters ([undefined],
    [null], or an object without properties) and [true] exactly when the
    parameter object has at least one property. *)
Theorem inputsAvailable_iff_parameters mi (w : world) :
  (∀ l ps,
     model_wpInputs mi = VRef l → store w !! l = Some (OObj ps) →
     NoDup ps.*1 →
     ∃ w', wpInputsAvailable mi w
           = Some (Normal (bool_decide (ps ≠ [])), w')) ∧
  (truthy (model_wpInputs mi) = false →
   ∃ w', wpInputsAvailable mi w = Some (Normal false, w')) ∧
  (∀ l ps,
     model_workflowResourceParameters mi = VRef l →
     store w !! l = Some (OObj ps) → NoDup ps.*1 →
     ∃ w', resourceInputsAvailable mi w
           = Some (Normal (bool_decide (ps ≠ [])), w')) ∧
  (truthy (model_workflowResourceParameters mi) = false →
   ∃ w', resourceInputsAvailable mi w = Some (Normal false, w')).
Proof.
  unfold wpInputsAvailable, resourceInputsAvailable, wpInputs, resourceInputs.
  repeat split.
  - intros l ps -> Hl Hnd. by apply length_positive_object.
  - apply length_positive_falsy.
  - intros l ps -> Hl Hnd. by apply length_positive_object.
  - apply length_positive_falsy.
Qed.

Lemma inputsAvailable_iff_parameters_witness :
  (∃ w', wpInputsAvailable (ModelInputs VUndef (VRef 5%nat)) world_wp_inputs
         = Some (Normal true, w')) ∧
  (∃ w', resourceInputsAvailable (ModelInputs VUndef (VRef 5%nat))
           world_wp_inputs
         = Some (Normal false, w')).
Proof.
  destruct (inputsAvailable_iff_parameters
              (ModelInputs VUndef (VRef 5%nat)) world_wp_inputs)
    as (Hwp & _ & _ & Hres).
  split.
  - apply (Hwp 5%nat [("b", VStr "B"); ("1", VStr "one"); ("a", VStr "A")]);
      [reflexivity|reflexivity|compute_done].
  - by apply Hres.
Defined.

(** ** The recorders *)

Lemma number_key_inj (n m : Z) : number_key n = number_key m → n = m.
Proof.
  unfold number_key. intros E. apply DecimalZ.to_int_inj.
  assert (∀ z, Z.to_int z ≠ Decimal.Pos Decimal.Nil ∧
               Z.to_int z ≠ Decimal.Neg Decimal.Nil) as Hnn.
  { intros [|p|p]; cbn; split; try discriminate;
      intros [= H]; by apply DecimalPos.Unsigned.to_uint_nonnil in H. }
  assert (Some (Z.to_int n) = Some (Z.to_int m)) as [= ->]; [|done].
  destruct (Hnn n), (Hnn m).
  rewrite <- (NilZero.isi (Z.to_int n)), <- (NilZero.isi (Z.to_int m)) by done.
  by rewrite E.
Qed.

(** X7: [onValidation(stepId, validation)] makes the entry of the step
    read [validation], whatever it read before; the entries of the other
    steps, the component and the trace are as they were, and the
    validation object keeps its identity. *)
Theorem onValidation_last_write_wins (w : world) lv pv stepId validation :
  stepValidations (this w) = VRef lv →
  store w !! lv = Some (OObj pv) →
  ∃ pv',
    onValidation stepId validation w =
      (Normal (), World (this w) (<[lv := OObj pv']> (store w)) (trace w)) ∧
    prop_get (number_key stepId) pv' = Some validation ∧
    ∀ other, other ≠ stepId →
             prop_get (number_key other) pv' = prop_get (number_key other) pv.
Proof.
  intros Hsv Hlv. exists (prop_set (number_key stepId) validation pv).
  split; [by apply onValidation_run|]. split; [apply prop_get_set_eq|].
  intros other Hne. apply prop_get_set_ne.
  intros E. by apply number_key_inj in E.
Qed.

Lemma onValidation_last_write_wins_witness :
  ∃ pv',
    onValidation 1 VNull world_one_failure =
      (Normal (),
       World (this world_one_failure)
             (<[1%nat := OObj pv']> (store world_one_failure))
             (trace world_one_failure)) ∧
    prop_get "1" pv' = Some VNull.
Proof.
  destruct (onValidation_last_write_wins world_one_failure 1%nat
              [("1", VRef 5%nat)] 1 VNull) as (pv' & Hrun & Hget & _);
    [reflexivity|reflexivity|].
  by exists pv'.
Defined.

Lemma prop_get_foldl_prop_set k (entries : list (string * value)) : ∀ acc,
  NoDup entries.*1 →
  prop_get k (foldl (λ ps kv, prop_set kv.1 kv.2 ps) acc entries) =
    match prop_get k entries with
    | Some v => Some v
    | None => prop_get k acc
    end.
Proof.
  induction entries as [|[k' v'] entries IH]; intros acc Hnd; [done|].
  apply NoDup_cons in Hnd as [Hk' Hnd]. cbn in Hk'.
  cbn [foldl fst snd]. rewrite IH by done. cbn [prop_get].
  destruct (String.eqb_spec k' k) as [->|Hne].
  - apply prop_get_None_keys in Hk'. rewrite Hk'. apply prop_get_set_eq.
  - by rewrite prop_get_set_ne.
Qed.



(** ** Throwing runs of [onExecute] *)

Lemma bind_throw {A B} (m : M A) (f : A → M B) (w w' : world) e :
  m w = (Throw e, w') → (m ≫= f) w = (Throw e, w').
Proof. intros H. unfold mbind, M_bind. by rewrite H. Qed.

(** X10: when the first truthy validation entry, in scan order, is a
    string, [onExecute] records the string itself as [stepError]; when it
    is neither a list nor a string (a number, [true], an object),
    [onExecute] throws a [TypeError] and leaves the world as it was: no
    scroll target, no request. *)
Theorem onExecute_validation_without_slice model (w : world) lv pv pre k v post :
  stepValidations (this w) = VRef lv →
  store w !! lv = Some (OObj pv) →
  own_entries pv = pre ++ (k, v) :: post →
  Forall (λ kv, truthy kv.2 = false) pre →
  truthy v = true →
  is_array (store w) v = false →
  onExecute model w =
    match v with
    | VStr s =>
        (Normal (),
         World (set_stepScrollTo (VRef (length (store w))) (this w))
               (store w ++ [OObj [("stepId", VStr k); ("stepError", VStr s)]])
               (trace w))
    | _ => (Throw TypeError, w)
    end.
Proof.
  intros Hsv Hlv Hown Hpre Hv Harr.
  unfold onExecute.
  erewrite bind_run by reflexivity. rewrite Hsv.
  erewrite bind_run
    by (unfold lift, Object_entries, heap_get; rewrite Hlv; reflexivity).
  rewrite Hown.
  assert (∀ (r : result bool) w',
            (if truthy v
             then stepError ← slice v;
                  target ← alloc (OObj [("stepId", VStr k);
                                        ("stepError", stepError)]);
                  write (set_stepScrollTo target) ;; mret true
             else scan_validations post) w = (r, w') →
            scan_validations (pre ++ (k, v) :: post) w = (r, w')) as Hscan.
  { intros r w'. clear Hown.
    induction Hpre as [|[k' v'] l Hv' _ IH]; [intros H; exact H|].
    cbn in Hv'. cbn [app scan_validations]. by rewrite Hv'. }
  rewrite Hv in Hscan.
  destruct v as [| |b|n|s|l]; try done.
  - by erewrite bind_throw by (by apply Hscan).
  - by erewrite bind_throw by (by apply Hscan).
  - by erewrite bind_run by (by apply Hscan).
  - cbn in Harr. erewrite bind_throw; [done|]. apply Hscan.
    unfold mbind, M_bind, slice.
    by destruct (store w !! l) as [[|]|].
Qed.

Lemma onExecute_validation_without_slice_witness :
  onExecute example_model world_number_validation
    = (Throw TypeError, world_number_validation).
Proof.
  apply (onExecute_validation_without_slice example_model
           world_number_validation 1%nat [("0", VNum 5)] [] "0" (VNum 5) []);
    first [reflexivity|constructor].
Defined.

Lemma filter_steps_throw model lp steps : ∀ (w : world),
  Exists (λ kv, nullish kv.2 = true) steps →
  ∃ w', forEach (filter_step model (VRef lp)) steps w = (Throw TypeError, w').
Proof.
  induction steps as [|[k v] steps IH]; intros w Hex.
  { by apply Exists_nil in Hex. }
  cbn [forEach].
  destruct (filter_step model (VRef lp) (k, v) w) as [[[]|[]] w1] eqn:Hstep.
  - apply Exists_cons in Hex as [Hv|Hex].
    + exfalso. unfold filter_step, mbind, M_bind, alloc, lift in Hstep.
      cbn in Hv, Hstep. by destruct v.
    + destruct (IH w1 Hex) as [w' Hw']. exists w'.
      by erewrite bind_run by exact Hstep.
  - exists w1. by erewrite bind_throw by exact Hstep.
Qed.

(** X11: when every validation entry is falsy but the inputs recorded for
    some step are [null] or [undefined], or the history options are,
    [onExecute] throws a [TypeError]: no request is sent, no event is
    issued and [showExecuting] stays as it was. *)
Theorem onExecute_throws_without_inputs model (w : world) lv pv :
  stepValidations (this w) = VRef lv →
  store w !! lv = Some (OObj pv) →
  Forall (λ kv, truthy kv.2 = false) pv →
  (nullish (historyData (this w)) = true
   ∨ ∃ ls ps, stepData (this w) = VRef ls ∧ store w !! ls = Some (OObj ps) ∧
              Exists (λ kv, nullish kv.2 = true) ps) →
  ∃ w', onExecute model w = (Throw TypeError, w') ∧
        trace w' = trace w ∧
        showExecuting (this w') = showExecuting (this w).
Proof.
  intros Hsv Hlv Hvalid Hmissing.
  assert (∃ w', onExecute model w = (Throw TypeError, w')) as [w' Hrun].
  { unfold onExecute.
    erewrite bind_run by reflexivity. rewrite Hsv.
    erewrite bind_run
      by (unfold lift, Object_entries, heap_get; rewrite Hlv; reflexivity).
    erewrite bind_run
      by (apply scan_validations_clear; by rewrite own_entries_Permutation).
    cbv beta iota.
    erewrite bind_run by reflexivity.
    erewrite bind_run by reflexivity. cbn [this].
    set (w1 := World (this w) (store w ++ [OObj []]) (trace w)).
    destruct Hmissing as [Hhd|(ls & ps & Hsd & Hls & Hex)].
    - destruct (lift (λ h, Object_entries h (stepData (this w))) w1)
        as [[steps|[]] w2] eqn:Hsteps;
        [|eexists; by erewrite bind_throw by exact Hsteps].
      assert (w2 = w1) as -> by (by injection Hsteps).
      erewrite bind_run by exact Hsteps.
      destruct (forEach (filter_step model (VRef (length (store w)))) steps w1)
        as [[[]|[]] w3] eqn:Hloop;
        [|eexists; by erewrite bind_throw by exact Hloop].
      erewrite bind_run by exact Hloop.
      assert (historyData (this w3) = historyData (this w)) as Hsame.
      { assert (steps_in (frame_from 0)
                  (forEach (filter_step model (VRef (length (store w)))) steps))
          as Hframe.
        { apply steps_in_forEach; [typeclasses eauto|]. intros entry.
          apply frame_filter_step. lia. }
        destruct (Hframe w1 ltac:(lia)) as (_ & _ & Hrec).
        unfold exec in Hrec. rewrite Hloop in Hrec. cbn in Hrec.
        by injection Hrec. }
      eexists. erewrite bind_throw; [reflexivity|].
      unfold history_name. erewrite bind_run by reflexivity.
      rewrite Hsame. unfold lift. by destruct (historyData (this w)).
    - rewrite Hsd. erewrite bind_run.
      2:{ unfold lift, Object_entries, heap_get. cbn [store w1].
          rewrite lookup_app_l by (by eapply lookup_lt_Some).
          rewrite Hls. reflexivity. }
      destruct (filter_steps_throw model (length (store w)) (own_entries ps) w1)
        as [w3 Hloop]; [by rewrite own_entries_Permutation|].
      eexists. by erewrite bind_throw by exact Hloop. }
  exists w'. split; [done|].
  destruct (onExecute_sends_at_most_once model w)
    as [Hquiet|(a & jd & Hnormal & _)].
  - unfold exec in Hquiet. by rewrite Hrun in Hquiet.
  - rewrite Hrun in Hnormal. done.
Qed.

Lemma onExecute_throws_without_inputs_witness :
  ∃ w', onExecute example_model world_null_input = (Throw TypeError, w') ∧
        trace w' = [] ∧ showExecuting (this w') = false.
Proof.
  destruct (onExecute_throws_without_inputs example_model world_null_input
              1%nat []) as (w' & Hrun & Htrace & Hbusy).
  - reflexivity.
  - reflexivity.
  - constructor.
  - right. exists 0%nat, [("0", VNull)].
    split; [reflexivity|]. split; [reflexivity|]. by left.
  - by exists w'.
Defined.

(** ** The scroll target, from record to read *)

Lemma getValidationScrollTo_target (w : world) lt m d stepId :
  stepScrollTo (this w) = VRef lt →
  store w !! lt = Some (OObj [("stepId", VStr (index_key m));
                              ("stepError", d)]) →
  (m < 4294967295)%N →
  getValidationScrollTo stepId w =
    if Z.of_N m =? stepId then Some (Normal d, w)
    else Some (Normal (VRef (length (store w))),
               World (this w) (store w ++ [OArr []]) (trace w)).
Proof.
  intros Hst Hlt Hm.
  assert (∀ k, (t ← read stepScrollTo; lift (λ h, get h t k)) w
               = (Normal (default VUndef
                            (prop_get k [("stepId", VStr (index_key m));
                                         ("stepError", d)])), w)) as Hget.
  { intros k. erewrite bind_run by reflexivity.
    unfold lift, get, heap_get. by rewrite Hst, Hlt. }
  unfold getValidationScrollTo. rewrite (Hget "stepId").
  change (default VUndef (prop_get "stepId" _)) with (VStr (index_key m)).
  unfold loose_eq_number.
  rewrite string_to_number_index_key by done. cbn [fmap option_fmap option_map].
  destruct (Z.of_N m =? stepId); [|done].
  by rewrite Hget.
Qed.

(** X9: the template asks [getValidationScrollTo] once per step and
    again at every rendering. For the step the scroll target names, the
    answer is the stored [stepError] itself, the same value at every call,
    and nothing changes. For any other step the answer is an empty array
    made for that call: two calls, for the same step or not, return two
    distinct arrays, neither of which existed before; the component, the
    trace and the objects there were stay as they are. *)
Theorem getValidationScrollTo_new_list_each_call (w : world) lt m d (a b : Z) :
  stepScrollTo (this w) = VRef lt →
  store w !! lt = Some (OObj [("stepId", VStr (index_key m));
                              ("stepError", d)]) →
  (m < 4294967295)%N →
  a ≠ Z.of_N m →
  b ≠ Z.of_N m →
  getValidationScrollTo (Z.of_N m) w = Some (Normal d, w) ∧
  ∃ w1 w2 la lb,
    getValidationScrollTo a w = Some (Normal (VRef la), w1) ∧
    getValidationScrollTo b w1 = Some (Normal (VRef lb), w2) ∧
    la ≠ lb ∧
    store w !! la = None ∧ store w !! lb = None ∧
    store w2 !! la = Some (OArr []) ∧ store w2 !! lb = Some (OArr []) ∧
    this w2 = this w ∧ trace w2 = trace w ∧
    store w `prefix_of` store w2 ∧
    getValidationScrollTo (Z.of_N m) w2 = Some (Normal d, w2).
Proof.
  intros Hst Hlt Hm Ha Hb.
  pose proof (lookup_lt_Some _ _ _ Hlt) as Hlen.
  set (w1 := World (this w) (store w ++ [OArr []]) (trace w)).
  set (w2 := World (this w) ((store w ++ [OArr []]) ++ [OArr []]) (trace w)).
  assert (∀ l o, store w !! l = Some o → store w1 !! l = Some o) as Hw1.
  { intros l o Ho. cbn. rewrite lookup_app_l; [done|by eapply lookup_lt_Some]. }
  assert (∀ l o, store w1 !! l = Some o → store w2 !! l = Some o) as Hw2.
  { intros l o Ho. cbn. rewrite lookup_app_l; [done|by eapply lookup_lt_Some]. }
  assert (∀ w0 stepId, stepScrollTo (this w0) = VRef lt →
            store w0 !! lt = Some (OObj [("stepId", VStr (index_key m));
                                         ("stepError", d)]) →
            stepId ≠ Z.of_N m →
            getValidationScrollTo stepId w0 =
              Some (Normal (VRef (length (store w0))),
                    World (this w0) (store w0 ++ [OArr []]) (trace w0)))
    as Hother.
  { intros w0 stepId H1 H2 Hne.
    rewrite (getValidationScrollTo_target w0 lt m d) by done.
    by destruct (Z.eqb_spec (Z.of_N m) stepId). }
  assert (∀ w0, stepScrollTo (this w0) = VRef lt →
            store w0 !! lt = Some (OObj [("stepId", VStr (index_key m));
                                         ("stepError", d)]) →
            getValidationScrollTo (Z.of_N m) w0 = Some (Normal d, w0))
    as Hsame.
  { intros w0 H1 H2.
    rewrite (getValidationScrollTo_target w0 lt m d) by done.
    by rewrite Z.eqb_refl. }
  split; [by apply Hsame|].
  exists w1, w2, (length (store w)), (S (length (store w))).
  split; [by apply Hother|].
  split.
  { rewrite (Hother w1) by (done || by apply Hw1).
    cbn. by rewrite length_app, Nat.add_1_r. }
  split; [lia|].
  split; [by apply lookup_ge_None|].
  split; [apply lookup_ge_None; lia|].
  split.
  { apply Hw2. cbn. rewrite lookup_app_r by lia. by rewrite Nat.sub_diag. }
  split.
  { cbn. rewrite lookup_app_r by (rewrite length_app; cbn; lia).
    rewrite length_app. cbn. by rewrite Nat.add_1_r, Nat.sub_diag. }
  split; [done|]. split; [done|].
  split.
  { cbn. rewrite <- app_assoc. by eexists. }
  apply Hsame; [done|]. by apply Hw2, Hw1.
Qed.

Lemma getValidationScrollTo_new_list_each_call_witness :
  getValidationScrollTo 3 world_three_steps_blocked
    = Some (Normal (VRef 7%nat), world_three_steps_blocked) ∧
  ∃ w1 w2 la lb,
    getValidationScrollTo 10 world_three_steps_blocked
      = Some (Normal (VRef la), w1) ∧
    getValidationScrollTo 10 w1 = Some (Normal (VRef lb), w2) ∧
    la ≠ lb.
Proof.
  destruct (getValidationScrollTo_new_list_each_call world_three_steps_blocked
              8%nat 3%N (VRef 7%nat) 10 10)
    as (Hsame & w1 & w2 & la & lb & Ha & Hb & Hne & _);
    [reflexivity|reflexivity|reflexivity|cbn; lia|cbn; lia|].
  split; [exact Hsame|]. by exists w1, w2, la, lb.
Defined.

(** X12: after [onExecute] has aborted on the validations,
    [getValidationScrollTo] answers, for the lowest step whose entry is
    truthy, with an array that has the elements of that entry and is not
    the entry itself, and for every other step index with a new empty
    array. *)
Theorem scroll_target_after_abort model (w : world) lv pv :
  stepValidations (this w) = VRef lv →
  store w !! lv = Some (OObj pv) →
  Forall (λ kv, is_index kv.1 = true) pv →
  Forall (λ kv, truthy kv.2 = true → is_array (store w) kv.2 = true) pv →
  Exists (λ kv, truthy kv.2 = true) pv →
  ∃ n la elems w',
    onExecute model w = (Normal (), w') ∧
    (index_key n, VRef la) ∈ pv ∧
    store w !! la = Some (OArr elems) ∧
    (∀ k' v' n', (k', v') ∈ pv → truthy v' = true →
                 array_index k' = Some n' → (n ≤ n')%N) ∧
    (∃ lc, getValidationScrollTo (Z.of_N n) w' = Some (Normal (VRef lc), w') ∧
           lc ≠ la ∧ store w' !! lc = Some (OArr elems)) ∧
    ∀ stepId, stepId ≠ Z.of_N n →
      getValidationScrollTo stepId w' =
        Some (Normal (VRef (length (store w'))),
              World (this w') (store w' ++ [OArr []]) (trace w')).
Proof.
  intros Hsv Hlv Hidx Harr Hex.
  rewrite <- (own_entries_Permutation pv) in Hex.
  apply first_truthy in Hex as (pre & [k v] & post & Hown & Hpre & Hv).
  destruct (own_entries_ascending _ _ _ _ Hidx Hown) as (n & Hn & Hin & Hmin).
  cbn in Hn, Hv. apply array_index_Some in Hn as [-> Hn].
  rewrite Forall_forall in Harr. pose proof (Harr _ Hin Hv) as Hv'. cbn in Hv'.
  destruct v as [| | | | |la]; try done. cbn in Hv'.
  destruct (store w !! la) as [[|elems]|] eqn:Hla; try done.
  exists n, la, elems. eexists. split.
  { by eapply onExecute_blocked. }
  set (w' := World _ _ _).
  assert (∀ stepId, getValidationScrollTo stepId w' =
            if Z.of_N n =? stepId
            then Some (Normal (VRef (length (store w))), w')
            else Some (Normal (VRef (length (store w'))),
                       World (this w') (store w' ++ [OArr []]) (trace w')))
    as Hread.
  { intros stepId.
    apply (getValidationScrollTo_target w' (S (length (store w)))); [done| |done].
    cbn. rewrite lookup_app_r by lia.
    by rewrite Nat.sub_succ_l, Nat.sub_diag. }
  repeat split; [done..| | |].
  - intros k' v' n' Hin' Hv'' Hn'. apply (Hmin (k', v')); [done| |done].
    intros Hp. rewrite Forall_forall in Hpre. apply Hpre in Hp. cbn in Hp.
    congruence.
  - exists (length (store w)). rewrite Hread, Z.eqb_refl.
    repeat split.
    + apply lookup_lt_Some in Hla. lia.
    + cbn. rewrite lookup_app_r by lia. by rewrite Nat.sub_diag.
  - intros stepId Hne. rewrite Hread.
    by destruct (Z.eqb_spec (Z.of_N n) stepId).
Qed.

Lemma scroll_target_after_abort_witness :
  ∃ w', onExecute example_model world_three_steps = (Normal (), w') ∧
        getValidationScrollTo 3 w' = Some (Normal (VRef 7%nat), w') ∧
        store w' !! 7%nat = Some (OArr [VStr "x"; VStr "y"]) ∧
        getValidationScrollTo 10 w' =
          Some (Normal (VRef 9%nat),
                World (this w') (store w' ++ [OArr []]) (trace w')).
Proof.
  destruct (scroll_target_after_abort example_model world_three_steps 1%nat
              [("10", VRef 5%nat); ("2", VNull); ("3", VRef 6%nat)])
    as (n & la & elems & w' & Hrun & _).
  - reflexivity.
  - reflexivity.
  - repeat constructor.
  - repeat constructor; cbn; done.
  - left. reflexivity.
  - exists w'. vm_compute in Hrun. injection Hrun as <-. repeat split.
Defined.

Lemma onExecute_catch_localized (w : world) e lerr errs sid lf fprops fname ferr :
  err_data_of (store w) e = Some (VRef lerr) →
  store w !! lerr = Some (OObj errs) →
  head (own_entries errs) = Some (sid, VRef lf) →
  store w !! lf = Some (OObj fprops) →
  head (own_entries fprops) = Some (fname, ferr) →
  onExecute_catch e w =
    (Normal (),
     World (set_stepScrollTo (VRef (S (length (store w))))
              (set_showExecuting false (this w)))
           (store w ++ [OArr [VStr fname; ferr];
                        OObj [("stepId", VStr sid);
                              ("stepError", VRef (length (store w)))]])
           (trace w ++ [Busy false])).
Proof.
  set (w1 := World (set_showExecuting false (this w)) (store w)
                   (trace w ++ [Busy false])).
  assert (busy false w = (Normal (), w1)) as Hbusy by reflexivity.
  intros Hed Hlerr Hfirst Hlf Hfield.
  unfold onExecute_catch.
  erewrite bind_run by exact Hbusy. cbv beta.
  erewrite bind_run by (by apply error_data_present). cbv beta.
  cbn [truthy]. unfold try_catch, localize_error.
  erewrite bind_run.
  2:{ unfold lift, Object_entries, heap_get. cbn [store w1].
      rewrite Hlerr. reflexivity. }
  cbv beta. rewrite Hfirst.
  erewrite bind_run.
  2:{ unfold lift, Object_entries, heap_get. cbn [store w1].
      rewrite Hlf. reflexivity. }
  cbv beta. rewrite Hfield.
  erewrite bind_run by reflexivity. erewrite bind_run by reflexivity.
  unfold write. cbn. rewrite length_app, Nat.add_1_r, <- app_assoc. done.
Qed.

(** X13: after the [catch] callback has localized a server error whose
    first entry is keyed by the step index [m], [getValidationScrollTo(m)]
    answers with a two-element array holding the first field name and its
    error, and answers every other step index with a new empty array; the
    raw error is not forwarded. *)
Theorem scroll_target_after_rejection (w : world) e m lerr errs lf fprops fname ferr :
  (m < 4294967295)%N →
  err_data_of (store w) e = Some (VRef lerr) →
  store w !! lerr = Some (OObj errs) →
  head (own_entries errs) = Some (index_key m, VRef lf) →
  store w !! lf = Some (OObj fprops) →
  head (own_entries fprops) = Some (fname, ferr) →
  ∃ w' lc,
    onExecute_catch e w = (Normal (), w') ∧
    trace w' = trace w ++ [Busy false] ∧
    getValidationScrollTo (Z.of_N m) w' = Some (Normal (VRef lc), w') ∧
    store w' !! lc = Some (OArr [VStr fname; ferr]) ∧
    ∀ stepId, stepId ≠ Z.of_N m →
      getValidationScrollTo stepId w' =
        Some (Normal (VRef (length (store w'))),
              World (this w') (store w' ++ [OArr []]) (trace w')).
Proof.
  intros Hm Hed Hlerr Hfirst Hlf Hfield.
  eexists _, (length (store w)). split.
  { by eapply onExecute_catch_localized. }
  set (w' := World _ _ _).
  assert (∀ stepId, getValidationScrollTo stepId w' =
            if Z.of_N m =? stepId
            then Some (Normal (VRef (length (store w))), w')
            else Some (Normal (VRef (length (store w'))),
                       World (this w') (store w' ++ [OArr []]) (trace w')))
    as Hread.
  { intros stepId.
    apply (getValidationScrollTo_target w' (S (length (store w)))); [done| |done].
    cbn. rewrite lookup_app_r by lia.
    by rewrite Nat.sub_succ_l, Nat.sub_diag. }
  repeat split.
  - by rewrite Hread, Z.eqb_refl.
  - cbn. rewrite lookup_app_r by lia. by rewrite Nat.sub_diag.
  - intros stepId Hne. rewrite Hread.
    by destruct (Z.eqb_spec (Z.of_N m) stepId).
Qed.

Lemma scroll_target_after_rejection_witness :
  ∃ w',
    onExecute_catch (last_allocated world_field_error) world_field_error
      = (Normal (), w') ∧
    trace w' = [Busy false] ∧
    getValidationScrollTo 2 w' = Some (Normal (VRef 10%nat), w') ∧
    store w' !! 10%nat = Some (OArr [VStr "field_x"; VStr "bad value"]).
Proof.
  destruct (scroll_target_after_rejection world_field_error
              (last_allocated world_field_error) 2%N 6%nat
              [("2", VRef 5%nat)] 5%nat [("field_x", VStr "bad value")]
              "field_x" (VStr "bad value"))
    as (w' & lc & Hrun & Htrace & Hread & Hlc & _);
    [done|reflexivity..|].
  exists w'. vm_compute in Hrun. injection Hrun as <-. repeat split.
Defined.

(** X14: a submission that succeeds is a round trip for the component:
    after [onExecute] and its [then] callback the component is what it
    was, with [showExecuting] false; the trace has grown by the busy flag,
    the request, the cleared flag and [submissionSuccess] with the
    invocations; and the scroll target is never cleared, so
    [getValidationScrollTo] still answers with the error of an earlier
    failure. *)
Theorem submission_round_trip model (w : world) lv ls lh pv ps hprops invocations :
  stepValidations (this w) = VRef lv →
  store w !! lv = Some (OObj pv) →
  Forall (λ kv, truthy kv.2 = false) pv →
  stepData (this w) = VRef ls →
  store w !! ls = Some (OObj ps) →
  NoDup ps.*1 →
  Forall (λ kv, is_object (store w) kv.2 = true) ps →
  historyData (this w) = VRef lh →
  store w !! lh = Some (OObj hprops) →
  ∃ jd w',
    (onExecute model ;; onExecute_then invocations) w = (Normal (), w') ∧
    this w' = set_showExecuting false (this w) ∧
    trace w' = trace w ++ [Busy true; InvokeWorkflow (workflowId model) jd;
                           Busy false; Emit "submissionSuccess" invocations] ∧
    ∀ lt m d,
      stepScrollTo (this w) = VRef lt →
      store w !! lt = Some (OObj [("stepId", VStr (index_key m));
                                  ("stepError", d)]) →
      (m < 4294967295)%N →
      getValidationScrollTo (Z.of_N m) w' = Some (Normal d, w').
Proof.
  intros Hsv Hlv Hvalid Hsd Hls Hnd Hinputs Hhd Hlh.
  pose proof (onExecute_submits model w lv ls lh pv ps hprops
                Hsv Hlv Hvalid Hsd Hls Hnd Hinputs Hhd Hlh) as Hsub.
  cbv zeta in Hsub.
  destruct Hsub as (w1 & params & Hrun & Hthis & Htrace & Hframe & _).
  eexists _, (World (set_showExecuting false (this w1)) (store w1)
                    ((trace w1 ++ [Busy false])
                     ++ [Emit "submissionSuccess" invocations])).
  split; [by erewrite bind_run by exact Hrun|].
  cbn [this trace store]. rewrite Hthis, Htrace. split; [done|].
  split; [by rewrite <- !app_assoc|].
  intros lt m d Hst Hlt Hm.
  erewrite (getValidationScrollTo_target _ lt m d); [by rewrite Z.eqb_refl|..].
  - done.
  - cbn. by apply Hframe.
  - done.
Qed.

Lemma submission_round_trip_witness :
  ∃ jd w',
    (onExecute example_model ;; onExecute_then (VStr "invocations"))
      world_two_inputs = (Normal (), w') ∧
    this w' = this world_two_inputs ∧
    trace w' = [Busy true; InvokeWorkflow (VStr "wf1") jd;
                Busy false; Emit "submissionSuccess" (VStr "invocations")].
Proof.
  destruct (submission_round_trip example_model world_two_inputs
              1%nat 0%nat 7%nat
              [("0", VNull)] [("0", VRef 5%nat); ("1", VRef 6%nat)]
              [("new_history|check", VStr "true");
               ("new_history|name", VStr "Results")] (VStr "invocations"))
    as (jd & w' & Hrun & Hthis & Htrace & _);
    [reflexivity|reflexivity|repeat constructor|reflexivity|reflexivity
    |compute_done|repeat constructor|reflexivity|reflexivity|].
  exists jd, w'. by repeat split.
Defined.

(** * Facts about the data providers *)
Import StoreProviders.

(** X15: [load()] of [GenomeProvider] and of [DatatypesProvider] runs to
    its end or to its [await] without throwing and without touching the
    heap, for every cached value other than an object with a [length]
    property of its own: [null], [undefined], a boolean, a number, a
    string, an array, an object without [length]. Either it returns at
    once, having asked nothing: then the cached value is not [null] or
    [undefined], [item] is that very value and [loading] is [false]. Or it
    calls the store action once, without arguments, and waits with
    [loading] true and [item] untouched. *)
Theorem cached_load_outcome action cached (w : pworld) :
  (∀ l ps, cached = VRef l → pstore w !! l = Some (OObj ps) →
           prop_get "length" ps = None) →
  ∃ r w',
    cached_load action cached w = Some (Normal r, w') ∧
    pstore w' = pstore w ∧
    ((r = Returned ∧ nullish cached = false ∧
      ptrace w' = ptrace w ∧ pthis w' = Provider false cached)
     ∨ (r = Awaiting ∧
        ptrace w' = ptrace w ++ [Dispatch action []] ∧
        pthis w' = Provider true (item (pthis w)))).
Proof.
  intros Hlen. unfold cached_load. destruct (nullish cached) eqn:Hn.
  { eexists _, _. split; [reflexivity|]. split; [done|]. right. by repeat split. }
  assert (∃ len, get (pstore (set_loading true w)) cached "length" = Normal len
                 ∧ ∃ b, loose_eq_number len 0 = Some b) as (len & -> & [b ->]).
  { destruct cached as [| |b|n|s|l]; try done; cbn; eauto.
    unfold heap_get. destruct (pstore w !! l) as [[ps|elems]|] eqn:Hl; cbn; eauto.
    rewrite (Hlen l ps) by done. cbn. eauto. }
  destruct b.
  - eexists _, _. split; [reflexivity|]. split; [done|]. right. by repeat split.
  - eexists _, _. split; [reflexivity|]. split; [done|]. left. by repeat split.
Qed.

Lemma cached_load_outcome_witness :
  ∃ w', GenomeProvider_load (VRef 0%nat) provider_data
        = Some (Normal Awaiting, w') ∧
        pstore w' = pstore provider_data ∧
        ptrace w' = [Dispatch "fetchUploadGenomes" []] ∧
        pthis w' = Provider true VNull.
Proof.
  destruct (cached_load_outcome "fetchUploadGenomes" (VRef 0%nat) provider_data)
    as (r & w' & Hrun & Hstore & H).
  - intros l ps [= <-] Hl. discriminate Hl.
  - change (cached_load "fetchUploadGenomes") with GenomeProvider_load in Hrun.
    vm_compute in Hrun. injection Hrun as <- <-.
    eexists. split; [reflexivity|]. by repeat split.
Defined.

(** X16: what makes these [load()]s call the store action: a cached value
    that is [null], [undefined], an empty array or the empty string. A
    cached array with an element, and an object without a [length]
    property, are taken as loaded: [item] is set to them and nothing is
    asked. *)
Theorem cached_load_decision action cached (w : pworld) :
  let fetch :=
    Some (Normal Awaiting,
          PWorld (Provider true (item (pthis w))) (pstore w)
                 (ptrace w ++ [Dispatch action []])) in
  let loaded :=
    Some (Normal Returned,
          PWorld (Provider false cached) (pstore w) (ptrace w)) in
  (nullish cached = true ∨ cached = VStr ""
   ∨ (∃ l, cached = VRef l ∧ pstore w !! l = Some (OArr [])) →
   cached_load action cached w = fetch) ∧
  ((∃ l x elems, cached = VRef l ∧ pstore w !! l = Some (OArr (x :: elems)))
   ∨ (∃ l ps, cached = VRef l ∧ pstore w !! l = Some (OObj ps) ∧
              prop_get "length" ps = None) →
   cached_load action cached w = loaded).
Proof.
  intros fetch loaded. unfold cached_load. split.
  - intros [Hn|[->|(l & -> & Hl)]].
    + by rewrite Hn.
    + done.
    + cbn. unfold heap_get. by rewrite Hl.
  - intros [(l & x & elems & -> & Hl)|(l & ps & -> & Hl & Hlen)].
    + cbn. unfold heap_get. rewrite Hl. cbn.
      by destruct (Z.eqb_spec (Z.pos (Pos.of_succ_nat (length elems))) 0).
    + cbn. unfold heap_get. rewrite Hl. cbn. by rewrite Hlen.
Qed.

Lemma cached_load_decision_witness :
  DatatypesProvider_load (VRef 0%nat) provider_data =
    Some (Normal Awaiting,
          PWorld (Provider true VNull) (pstore provider_data)
                 [Dispatch "fetchUploadDatatypes" []]) ∧
  DatatypesProvider_load (VRef 1%nat) provider_data =
    Some (Normal Returned,
          PWorld (Provider false (VRef 1%nat)) (pstore provider_data) []) ∧
  DatatypesProvider_load (VRef 2%nat) provider_data =
    Some (Normal Returned,
          PWorld (Provider false (VRef 2%nat)) (pstore provider_data) []).
Proof.
  split; [|split].
  - destruct (cached_load_decision "fetchUploadDatatypes" (VRef 0%nat)
                provider_data) as [H _].
    apply H. right. right. by exists 0%nat.
  - destruct (cached_load_decision "fetchUploadDatatypes" (VRef 1%nat)
                provider_data) as [_ H].
    apply H. left. by exists 1%nat, (VStr "hg19"), [VStr "mm10"].
  - destruct (cached_load_decision "fetchUploadDatatypes" (VRef 2%nat)
                provider_data) as [_ H].
    apply H. right. by eexists 2%nat, _.
Defined.

(** X17: [load()] and [save()] of [SimpleProviderMixin] set [loading] and
    send one request. When it resolves with anything but [null] and
    [undefined], [item] is replaced and [loading] is cleared: for an object
    [item] becomes the [data] property of the response ([undefined] if
    there is none). When it resolves with [null] or [undefined], the
    destructuring throws a [TypeError] and [loading] stays [true], with
    [item] as it was. The heap and the requests sent are never touched by
    the second half. *)
Theorem simple_provider_resolved url newProps response (w : pworld) :
  let asked r := PWorld (Provider true (item (pthis w))) (pstore w)
                        (ptrace w ++ [r]) in
  load url w = (Awaiting, asked (Get url)) ∧
  save url newProps w = (Awaiting, asked (Put url newProps)) ∧
  ∀ r,
    (nullish response = true →
     resolved response (asked r) = (Throw TypeError, asked r)) ∧
    (nullish response = false →
     ∃ data,
       resolved response (asked r) =
         (Normal (),
          PWorld (Provider false data) (pstore w) (ptrace w ++ [r]))) ∧
    (∀ l ps, response = VRef l → pstore w !! l = Some (OObj ps) →
       resolved response (asked r) =
         (Normal (),
          PWorld (Provider false (default VUndef (prop_get "data" ps)))
                 (pstore w) (ptrace w ++ [r]))).
Proof.
  intros asked. repeat split.
  - intros Hn. unfold resolved. by destruct response.
  - intros Hn. unfold resolved.
    assert (∃ data, get (pstore (asked r)) response "data" = Normal data)
      as [data ->]; [|by exists data].
    destruct response as [| | | | |l]; try done; cbn; eauto.
    destruct (heap_get (pstore w) l); eauto.
  - intros l ps -> Hl. unfold resolved, get, heap_get. cbn [pstore asked].
    by rewrite Hl.
Qed.

Lemma simple_provider_resolved_witness :
  resolved (VRef 3%nat) (load (VStr "/api/jobs/1?full=true") provider_data).2 =
    (Normal (),
     PWorld (Provider false (VStr "job")) (pstore provider_data)
            [Get (VStr "/api/jobs/1?full=true")]).
Proof.
  destruct (simple_provider_resolved (VStr "/api/jobs/1?full=true") VUndef
              (VRef 3%nat) provider_data) as (_ & _ & H).
  destruct (H (Get (VStr "/api/jobs/1?full=true"))) as (_ & _ & Hobj).
  by apply (Hobj 3%nat [("data", VStr "job"); ("status", VNum 200)]).
Defined.

(** X18: [load()] of a [StoreProvider] hands the store action one
    argument, a new object: it has the properties of [$attrs] with their
    values, it is no object that existed ([$attrs] itself is not passed),
    and every object that existed is left as it was. With [$attrs] [null]
    or [undefined] the argument is an object without properties.
    [loading] is [true] until the action has completed. *)
Theorem StoreProvider_load_copies_attrs storeAction attrs (w : pworld) :
  ∃ copy,
    StoreProvider_load storeAction attrs w =
      (Awaiting,
       PWorld (Provider true (item (pthis w)))
              (pstore w ++ [OObj copy])
              (ptrace w ++ [Dispatch storeAction [VRef (length (pstore w))]])) ∧
    pstore w !! length (pstore w) = None ∧
    (nullish attrs = true → copy = []) ∧
    (∀ l ps, attrs = VRef l → pstore w !! l = Some (OObj ps) → NoDup ps.*1 →
             ∀ k, prop_get k copy = prop_get k ps) ∧
    StoreProvider_loaded
      (StoreProvider_load storeAction attrs w).2 =
      PWorld (Provider false (item (pthis w)))
             (pstore w ++ [OObj copy])
             (ptrace w ++ [Dispatch storeAction [VRef (length (pstore w))]]).
Proof.
  eexists. split; [reflexivity|]. split; [by apply lookup_ge_None|].
  split; [|split; [|reflexivity]].
  - intros Hn. cbn. unfold spread_entries. by destruct attrs.
  - intros l ps -> Hl Hnd k. cbn.
    unfold spread_entries, Object_entries, heap_get. rewrite Hl. cbn.
    rewrite prop_get_foldl_prop_set by (by rewrite own_entries_Permutation).
    rewrite <- (prop_get_Permutation k ps (own_entries ps))
      by (done || by rewrite own_entries_Permutation).
    by destruct (prop_get k ps).
Qed.

Lemma StoreProvider_load_copies_attrs_witness :
  ∃ copy,
    HistoryItemsProvider_load (VRef 2%nat) provider_data =
      (Awaiting,
       PWorld (Provider true VNull)
              (pstore provider_data ++ [OObj copy])
              [Dispatch "fetchHistoryItems" [VRef 4%nat]]) ∧
    prop_get "limit" copy = Some (VNum 5) ∧
    prop_get "10" copy = Some (VStr "x").
Proof.
  destruct (StoreProvider_load_copies_attrs "fetchHistoryItems" (VRef 2%nat)
              provider_data) as (copy & Hrun & _ & _ & Hcopy & _).
  assert (∀ k, prop_get k copy
               = prop_get k [("limit", VNum 5); ("10", VStr "x")]) as H.
  { apply (Hcopy 2%nat); [reflexivity|reflexivity|compute_done]. }
  exists copy. split; [exact Hrun|]. by rewrite !H.
Defined.
